(** * Darcy-flow grid of the sphere DEM code: index mapping, stability
      checks and residual diagnostics ([src/darcy.cpp]).

    The development is a shallow embedding of the member functions of
    [DEM] defined in [darcy.cpp].  Integers are mathematical integers with
    the 32-bit reduction of [unsigned int] results written out, [Float]
    values are IEEE-754 binary64 numbers as specified by the standard
    library's [SpecFloat], heap arrays are lists read by position, and the
    member functions run in a small state-and-exit monad over the [DEM]
    object. *)

From Stdlib Require Import String.
From Stdlib Require Import ZArith Lia Bool SpecFloat.
From stdpp Require Import base list list_numbers sorting.

Local Open Scope Z_scope.

(** ** Machine integers *)

(** [unsigned int] is 32 bits wide: a value converted to it is reduced
    modulo [2^32]. *)
Definition UINT_WIDTH : Z := 32.
Definition UINT_MODULUS : Z := 2 ^ UINT_WIDTH.
Definition to_uint (n : Z) : Z := n mod UINT_MODULUS.

(** ** Floating-point numbers *)

(** [Float] is the [double] of the default build (typedefs.h), an IEEE-754
    binary64 number; [static_cast<double>] of a [Float] is the identity. *)
Definition prec : Z := 53.
Definition emax : Z := 1024.

Definition Float : Type := spec_float.

Definition Fadd : Float -> Float -> Float := SFadd prec emax.
Definition Fmul : Float -> Float -> Float := SFmul prec emax.
Definition Fdiv : Float -> Float -> Float := SFdiv prec emax.
(** [a > b] on doubles: false as soon as one side is NaN. *)
Definition Fgt (a b : Float) : bool := SFltb b a.
(** [a != b] on doubles: true as soon as one side is NaN. *)
Definition Fne (a b : Float) : bool := negb (SFeqb a b).
(** Conversion of an integer to [Float], round to nearest even. *)
Definition Float_of_Z (n : Z) : Float := binary_normalize prec emax n 0 false.

Definition is_nan (a : Float) : bool :=
  match a with S754_nan => true | _ => false end.

(** [fmin] of <cmath>: a NaN argument is treated as missing data, so the
    other argument is returned. *)
Definition fmin (a b : Float) : Float :=
  if is_nan a then b
  else if is_nan b then a
  else if SFltb b a then b else a.

(** [int(a)]: truncation toward zero; the conversion is undefined ([None])
    when [a] is not finite or the truncated value is no [int]. *)
Definition INT_MIN : Z := - 2 ^ 31.
Definition INT_MAX : Z := 2 ^ 31 - 1.

Definition truncate (a : Float) : option Z :=
  match a with
  | S754_zero _ => Some 0
  | S754_finite s m e =>
      let mag := match e with
                 | Zneg k => Z.shiftr (Zpos m) (Zpos k)
                 | _ => Z.shiftl (Zpos m) e
                 end in
      Some (if s then - mag else mag)
  | _ => None
  end.

Definition int_of_Float (a : Float) : option Z :=
  match truncate a with
  | Some n => if (INT_MIN <=? n) && (n <=? INT_MAX) then Some n else None
  | None => None
  end.

(** The literals of the source, all exactly representable. *)
Definition F0_5 : Float := Eval cbv in Fdiv (Float_of_Z 1) (Float_of_Z 2).
Definition F1_0 : Float := Eval cbv in Float_of_Z 1.
Definition Fm1e9 : Float := Eval cbv in Float_of_Z (- 1000000000).
Definition F0 : Float := S754_zero false.

(** ** Data types (datatypes.h) *)

Record Float3 := mkFloat3 { f3_x : Float; f3_y : Float; f3_z : Float }.
Record Float4 := mkFloat4
  { f4_x : Float; f4_y : Float; f4_z : Float; f4_w : Float }.

(** An array of [ND = 3] values, indexed [a[0]], [a[1]], [a[2]]. *)
Record ND3 (A : Type) := mkND3 { at0 : A; at1 : A; at2 : A }.
Arguments mkND3 {A} _ _ _.
Arguments at0 {A} _.
Arguments at1 {A} _.
Arguments at2 {A} _.

Record Grid := mkGrid
  { grid_L : ND3 Float;     (* grid.L[]: domain length per axis *)
    grid_num : ND3 Z }.     (* grid.num[]: cell count per axis *)

Record Time := mkTime
  { time_dt : Float;        (* time.dt *)
    time_current : Float }. (* time.current *)

Record Params := mkParams
  { params_mu : Float }.    (* params.mu: fluid viscosity *)

(** The [darcy] member.  A heap array ([new T[n]]) is the list of its [n]
    elements. *)
Record Darcy := mkDarcy
  { darcy_nx : Z; darcy_ny : Z; darcy_nz : Z;
    darcy_dx : Float; darcy_dy : Float; darcy_dz : Float;
    darcy_p : list Float;       (* hydraulic pressure *)
    darcy_v : list Float3;      (* hydraulic velocity *)
    darcy_phi : list Float;     (* porosity *)
    darcy_dphi : list Float;    (* porosity change *)
    darcy_norm : list Float;    (* normalized residual of epsilon *)
    darcy_f_p : list Float4 }.  (* pressure force on particles *)

Record DEM := mkDEM
  { grid : Grid;
    time : Time;
    params : Params;
    np : Z;                 (* number of particles *)
    verbose : Z;
    darcy : Darcy }.

(** ** Index mapping *)

(** [DEM::darcyCells]: number of cells with ghost nodes. *)
Definition darcyCells (d : DEM) : Z :=
  to_uint ((darcy_nx (darcy d) + 2) * (darcy_ny (darcy d) + 2)
           * (darcy_nz (darcy d) + 2)).

(** [DEM::darcyCellsVelocity]: velocity nodes of the congruent padded
    grid. *)
Definition darcyCellsVelocity (d : DEM) : Z :=
  to_uint ((darcy_nx (darcy d) + 3) * (darcy_ny (darcy d) + 3)
           * (darcy_nz (darcy d) + 3)).

(** [DEM::d_idx]: 3D index to 1D index, ghost nodes at [-1] and at the
    width. *)
Definition d_idx (d : DEM) (x y z : Z) : Z :=
  to_uint ((x + 1) + (darcy_nx (darcy d) + 2) * (y + 1)
           + (darcy_nx (darcy d) + 2) * (darcy_ny (darcy d) + 2) * (z + 1)).

(** [DEM::d_vidx]: 3D index to 1D index of the cell-face velocity nodes. *)
Definition d_vidx (d : DEM) (x y z : Z) : Z :=
  to_uint ((x + 1) + (darcy_nx (darcy d) + 3) * (y + 1)
           + (darcy_nx (darcy d) + 3) * (darcy_ny (darcy d) + 3) * (z + 1)).

(** Coordinates of the padded grid, ghost nodes included. *)
Definition padded (d : DEM) (x y z : Z) : Prop :=
  -1 <= x <= darcy_nx (darcy d) /\
  -1 <= y <= darcy_ny (darcy d) /\
  -1 <= z <= darcy_nz (darcy d).

(** Coordinates of the cells proper, as [darcy.nx], [darcy.ny], [darcy.nz]
    count them. *)
Definition interior (d : DEM) (x y z : Z) : Prop :=
  0 <= x < darcy_nx (darcy d) /\
  0 <= y < darcy_ny (darcy d) /\
  0 <= z < darcy_nz (darcy d).

Definition d_idx_injective (d : DEM) : Prop :=
  forall x y z x' y' z',
    padded d x y z -> padded d x' y' z' ->
    d_idx d x y z = d_idx d x' y' z' ->
    x = x' /\ y = y' /\ z = z'.

Definition d_idx_covers (d : DEM) : Prop :=
  forall k,
    (exists x y z, padded d x y z /\ d_idx d x y z = k)
    <-> 0 <= k < darcyCells d.

(** A [DEM] object at rest: given cell counts, nothing allocated. *)
Definition blank_Darcy (nx ny nz : Z) : Darcy :=
  mkDarcy nx ny nz F0 F0 F0 [] [] [] [] [] [].

Definition blank_DEM (nx ny nz : Z) : DEM :=
  mkDEM (mkGrid (mkND3 F0 F0 F0) (mkND3 nx ny nz))
        (mkTime F0 F0) (mkParams F0) 0 0 (blank_Darcy nx ny nz).

(** ** Diagnostics, outcomes and the execution monad *)

(** What is written to the error stream when the process ends: by a
    member function before [exit(1)], or by the run-time when an exception
    leaves the program uncaught. *)
Inductive Diag :=
| BadAlloc
    (* "terminate called after throwing an instance of 'std::bad_alloc'" *)
| DiffusionUnstable
    (* "The time step is too large to ensure stability in the diffusive
        term of the fluid momentum equation." *)
| AdvectionUnstable (x y z : Z) (v : Float3)
    (* "... stability in the advective term ...  v(x,y,z) = [v.x,v.y,v.z]
        m/s" *)
| ResidualNaN (norm_res : Float) (x y z : Z) (t : Float) (iter : option Z).
    (* "normalized residual is NaN (norm_res) in cell x,y,z
        t = time.current, iter = int(time.current/time.dt)" *)

(** A call returns a value, ends the process with a status (through
    [exit(status)], or through [std::terminate] when a [new[]] fails: no
    function of this file catches [std::bad_alloc]), or reads an array
    outside its bounds, which C++ leaves undefined. *)
Inductive outcome (A : Type) :=
| Returned (a : A)
| Exited (status : Z) (msg : Diag)
| Undefined.
Arguments Returned {A} _.
Arguments Exited {A} _ _.
Arguments Undefined {A}.

(** Member functions act on the [DEM] object. *)
Definition M (A : Type) : Type := DEM -> outcome A * DEM.

Definition ret {A} (a : A) : M A := fun d => (Returned a, d).

Definition bind {A B} (m : M A) (k : A -> M B) : M B :=
  fun d =>
    match m d with
    | (Returned a, d') => k a d'
    | (Exited st msg, d') => (Exited st msg, d')
    | (Undefined, d') => (Undefined, d')
    end.

Definition get : M DEM := fun d => (Returned d, d).
Definition put (d' : DEM) : M unit := fun _ => (Returned tt, d').
Definition exit {A} (status : Z) (msg : Diag) : M A :=
  fun d => (Exited status msg, d).
Definition undefined {A} : M A := fun d => (Undefined, d).

Declare Scope dem_scope.
Delimit Scope dem_scope with dem.
Notation "x <- m ;; k" := (bind m (fun x => k))
  (at level 100, m at next level, right associativity) : dem_scope.
Local Open Scope dem_scope.

(** [arr[i]] as an rvalue. *)
Definition read {A} (arr : list A) (i : Z) : M A :=
  match arr !! Z.to_nat i with
  | Some a => ret a
  | None => undefined
  end.

(** Running a loop body over the successive values of the loop variable;
    [s] carries the locals the body updates. *)
Fixpoint for_each {I S} (l : list I) (body : I -> S -> M S) (s : S) : M S :=
  match l with
  | [] => ret s
  | i :: l' => s' <- body i s;; for_each l' body s'
  end.

(** [for (i = 0; i < n; ++i) body]. *)
Definition for_upto {S} (n : Z) (body : Z -> S -> M S) (s : S) : M S :=
  for_each (seqZ 0 n) body s.

(** ** Memory management *)

(** [new T[n]]: [n] elements whose values are whatever the memory holds. *)
Definition new_array {A} (holds : nat -> A) (n : Z) : list A :=
  holds <$> seq 0 (Z.to_nat n).

(** Contents of the memory handed out by the six allocations. *)
Record Fresh := mkFresh
  { fresh_p : nat -> Float;
    fresh_v : nat -> Float3;
    fresh_phi : nat -> Float;
    fresh_dphi : nat -> Float;
    fresh_norm : nat -> Float;
    fresh_f_p : nat -> Float4 }.

Definition set_darcy (d : DEM) (dc : Darcy) : DEM :=
  mkDEM (grid d) (time d) (params d) (np d) (verbose d) dc.

(** Conversion of an [unsigned int] to [int]: the value modulo [2^32]
    that lies in [-2^31 .. 2^31 - 1]. *)
Definition to_int (n : Z) : Z := to_uint (n - INT_MIN) + INT_MIN.

(** The status of a process ended by [abort()], as a shell reports it
    (128 + SIGABRT). *)
Definition ABORTED : Z := 134.

(** The free store as [initDarcyMem] meets it: for each of its six
    [new[]], the memory handed out, or [None] when that allocation
    fails. *)
Record Heap := mkHeap
  { heap_p : option (nat -> Float);
    heap_v : option (nat -> Float3);
    heap_phi : option (nat -> Float);
    heap_dphi : option (nat -> Float);
    heap_norm : option (nat -> Float);
    heap_f_p : option (nat -> Float4) }.

(** A free store on which all six allocations succeed. *)
Definition gives (mem : Fresh) : Heap :=
  mkHeap (Some (fresh_p mem)) (Some (fresh_v mem)) (Some (fresh_phi mem))
         (Some (fresh_dphi mem)) (Some (fresh_norm mem))
         (Some (fresh_f_p mem)).

(** [new T[n]]: the array, or [std::bad_alloc], which nothing catches. *)
Definition operator_new {A} (h : option (nat -> A)) (n : Z) : M (list A) :=
  match h with
  | Some holds => ret (new_array holds n)
  | None => exit ABORTED BadAlloc
  end.

(** Assignment to members of [darcy]. *)
Definition assign (f : Darcy -> Darcy) : M unit :=
  fun d => (Returned tt, set_darcy d (f (darcy d))).

Definition set_counts (nx ny nz : Z) (dc : Darcy) : Darcy :=
  mkDarcy nx ny nz (darcy_dx dc) (darcy_dy dc) (darcy_dz dc)
          (darcy_p dc) (darcy_v dc) (darcy_phi dc) (darcy_dphi dc)
          (darcy_norm dc) (darcy_f_p dc).
Definition set_p (p : list Float) (dc : Darcy) : Darcy :=
  mkDarcy (darcy_nx dc) (darcy_ny dc) (darcy_nz dc)
          (darcy_dx dc) (darcy_dy dc) (darcy_dz dc)
          p (darcy_v dc) (darcy_phi dc) (darcy_dphi dc)
          (darcy_norm dc) (darcy_f_p dc).
Definition set_v (v : list Float3) (dc : Darcy) : Darcy :=
  mkDarcy (darcy_nx dc) (darcy_ny dc) (darcy_nz dc)
          (darcy_dx dc) (darcy_dy dc) (darcy_dz dc)
          (darcy_p dc) v (darcy_phi dc) (darcy_dphi dc)
          (darcy_norm dc) (darcy_f_p dc).
Definition set_phi (phi : list Float) (dc : Darcy) : Darcy :=
  mkDarcy (darcy_nx dc) (darcy_ny dc) (darcy_nz dc)
          (darcy_dx dc) (darcy_dy dc) (darcy_dz dc)
          (darcy_p dc) (darcy_v dc) phi (darcy_dphi dc)
          (darcy_norm dc) (darcy_f_p dc).
Definition set_dphi (dphi : list Float) (dc : Darcy) : Darcy :=
  mkDarcy (darcy_nx dc) (darcy_ny dc) (darcy_nz dc)
          (darcy_dx dc) (darcy_dy dc) (darcy_dz dc)
          (darcy_p dc) (darcy_v dc) (darcy_phi dc) dphi
          (darcy_norm dc) (darcy_f_p dc).
Definition set_norm (norm : list Float) (dc : Darcy) : Darcy :=
  mkDarcy (darcy_nx dc) (darcy_ny dc) (darcy_nz dc)
          (darcy_dx dc) (darcy_dy dc) (darcy_dz dc)
          (darcy_p dc) (darcy_v dc) (darcy_phi dc) (darcy_dphi dc)
          norm (darcy_f_p dc).
Definition set_f_p (f_p : list Float4) (dc : Darcy) : Darcy :=
  mkDarcy (darcy_nx dc) (darcy_ny dc) (darcy_nz dc)
          (darcy_dx dc) (darcy_dy dc) (darcy_dz dc)
          (darcy_p dc) (darcy_v dc) (darcy_phi dc) (darcy_dphi dc)
          (darcy_norm dc) f_p.

(** [DEM::initDarcyMem].  The counts [darcy.nx], [darcy.ny], [darcy.nz]
    are [int], the entries of [grid.num] and [np] are [unsigned int]. *)
Definition initDarcyMem (heap : Heap) : M unit :=
  d <- get;;
  (* Number of cells *)
  _ <- assign (set_counts (to_int (at0 (grid_num (grid d))))
                          (to_int (at1 (grid_num (grid d))))
                          (to_int (at2 (grid_num (grid d)))));;
  d1 <- get;;
  let ncells := darcyCells d1 in
  p <- operator_new (heap_p heap) ncells;;          (* hydraulic pressure *)
  _ <- assign (set_p p);;
  v <- operator_new (heap_v heap) ncells;;          (* hydraulic velocity *)
  _ <- assign (set_v v);;
  phi <- operator_new (heap_phi heap) ncells;;      (* porosity *)
  _ <- assign (set_phi phi);;
  dphi <- operator_new (heap_dphi heap) ncells;;    (* porosity change *)
  _ <- assign (set_dphi dphi);;
  norm <- operator_new (heap_norm heap) ncells;;    (* normalized residual *)
  _ <- assign (set_norm norm);;
  f_p <- operator_new (heap_f_p heap) (np d);;  (* pressure force on particles *)
  assign (set_f_p f_p).

(** ** Stability of the explicit integration *)

(** Cell dimensions as [checkDarcyStability] computes them. *)
Definition cell_dx (d : DEM) : Float :=
  Fdiv (at0 (grid_L (grid d))) (Float_of_Z (at0 (grid_num (grid d)))).
Definition cell_dy (d : DEM) : Float :=
  Fdiv (at1 (grid_L (grid d))) (Float_of_Z (at1 (grid_num (grid d)))).
Definition cell_dz (d : DEM) : Float :=
  Fdiv (at2 (grid_L (grid d))) (Float_of_Z (at2 (grid_num (grid d)))).

(** The smallest grid spacing. *)
Definition cell_dmin (d : DEM) : Float :=
  fmin (cell_dx d) (fmin (cell_dy d) (cell_dz d)).

(** [params.mu*time.dt/(dmin*dmin)]. *)
Definition diffusion_number (d : DEM) : Float :=
  Fdiv (Fmul (params_mu (params d)) (time_dt (time d)))
       (Fmul (cell_dmin d) (cell_dmin d)).

(** [v.x*time.dt/dx + v.y*time.dt/dy + v.z*time.dt/dz]. *)
Definition courant_number (d : DEM) (v : Float3) : Float :=
  Fadd (Fadd (Fdiv (Fmul (f3_x v) (time_dt (time d))) (cell_dx d))
             (Fdiv (Fmul (f3_y v) (time_dt (time d))) (cell_dy d)))
       (Fdiv (Fmul (f3_z v) (time_dt (time d))) (cell_dz d)).

(** [DEM::checkDarcyStability]. *)
Definition checkDarcyStability : M unit :=
  d <- get;;
  (* Check the diffusion term using von Neumann stability analysis *)
  if Fgt (diffusion_number d) F0_5 then exit 1 DiffusionUnstable
  else
    for_upto (darcy_nx (darcy d)) (fun x u =>
      for_upto (darcy_ny (darcy d)) (fun y u =>
        for_upto (darcy_nz (darcy d)) (fun z u =>
          v <- read (darcy_v (darcy d)) (d_idx d x y z);;
          (* Check the advection term using the Courant-Friedrichs-Lewy
             condition *)
          if Fgt (courant_number d v) F1_0
          then exit 1 (AdvectionUnstable x y z v)
          else ret u) u) u) tt.

(** ** Residual diagnostics *)

(** The report both residual functions write for a NaN in cell
    [(x,y,z)]. *)
Definition nan_report (d : DEM) (norm_res : Float) (x y z : Z) : Diag :=
  ResidualNaN norm_res x y z (time_current (time d))
    (int_of_Float (Fdiv (time_current (time d)) (time_dt (time d)))).

(** [DEM::avgNormResDarcy].  The local [norm_res_sum] is declared without
    an initializer; [norm_res_sum0] is the value its storage happens to
    hold when the function is entered. *)
Definition avgNormResDarcy (norm_res_sum0 : Float) : M Float :=
  d <- get;;
  (* do not consider the values of the ghost nodes *)
  norm_res_sum <-
    for_upto (at2 (grid_num (grid d))) (fun z norm_res_sum =>
      for_upto (at1 (grid_num (grid d))) (fun y norm_res_sum =>
        for_upto (at0 (grid_num (grid d))) (fun x norm_res_sum =>
          norm_res <- read (darcy_norm (darcy d)) (d_idx d x y z);;
          if Fne norm_res norm_res
          then exit 1 (nan_report d norm_res x y z)
          else ret (Fadd norm_res_sum norm_res))
        norm_res_sum) norm_res_sum) norm_res_sum0;;
  ret (Fdiv norm_res_sum
         (Float_of_Z (to_uint (at0 (grid_num (grid d))
                               * at1 (grid_num (grid d))
                               * at2 (grid_num (grid d)))))).

(** [DEM::maxNormResDarcy]. *)
Definition maxNormResDarcy : M Float :=
  d <- get;;
  (* do not consider the values of the ghost nodes *)
  for_upto (at2 (grid_num (grid d))) (fun z max_norm_res =>
    for_upto (at1 (grid_num (grid d))) (fun y max_norm_res =>
      for_upto (at0 (grid_num (grid d))) (fun x max_norm_res =>
        norm_res <- read (darcy_norm (darcy d)) (d_idx d x y z);;
        if Fne norm_res norm_res
        then exit 1 (nan_report d norm_res x y z)
        else if Fgt norm_res max_norm_res then ret norm_res
        else ret max_norm_res)
      max_norm_res) max_norm_res) Fm1e9 (* initialized to a small number *).

(** Cells the residual functions visit: the loop bounds are [grid.num]. *)
Definition residual_cell (d : DEM) (x y z : Z) : Prop :=
  0 <= x < at0 (grid_num (grid d)) /\
  0 <= y < at1 (grid_num (grid d)) /\
  0 <= z < at2 (grid_num (grid d)).

(** [darcy.norm[d_idx(x,y,z)]] and [darcy.v[d_idx(x,y,z)]], when the
    offset lies inside the array. *)
Definition norm_at (d : DEM) (x y z : Z) : option Float :=
  darcy_norm (darcy d) !! Z.to_nat (d_idx d x y z).
Definition v_at (d : DEM) (x y z : Z) : option Float3 :=
  darcy_v (darcy d) !! Z.to_nat (d_idx d x y z).

(** ** Scan order of the triple loops *)

(** Values [(i,j,k)] of the loop variables of
    [for i < n1: for j < n2: for k < n3], outermost first, in the order
    the innermost body runs. *)
Definition cells3 (n1 n2 n3 : Z) : list (Z * Z * Z) :=
  i ← seqZ 0 n1; j ← seqZ 0 n2; k ← seqZ 0 n3; [(i, j, k)].

(** The body runs for [a] before it runs for [b]. *)
Definition lex3 (a b : Z * Z * Z) : Prop :=
  a.1.1 < b.1.1 \/
  (a.1.1 = b.1.1 /\ (a.1.2 < b.1.2 \/ (a.1.2 = b.1.2 /\ a.2 < b.2))).

(** [checkDarcyStability] has [x] outermost and [z] innermost. *)
Definition stability_scan_before (x' y' z' x y z : Z) : Prop :=
  lex3 (x', y', z') (x, y, z).

(** The residual functions have [z] outermost and [x] innermost. *)
Definition residual_scan_before (x' y' z' x y z : Z) : Prop :=
  lex3 (z', y', x') (z, y, x).

(** What the three loops compute, cell by cell: read the cell value, leave
    with a report when it is bad, update the running local otherwise. *)
Section Scan.
Context {I V S : Type}.
Variable val : I -> option V.
Variable bad : V -> bool.
Variable report : I -> V -> Diag.
Variable upd : S -> V -> S.

Definition scan_step (c : I) (s : S) : outcome S :=
  match val c with
  | None => Undefined
  | Some v => if bad v then Exited 1 (report c v) else Returned (upd s v)
  end.

Fixpoint scan (l : list I) (s : S) : outcome S :=
  match l with
  | [] => Returned s
  | c :: l' =>
      match scan_step c s with
      | Returned s' => scan l' s'
      | Exited st msg => Exited st msg
      | Undefined => Undefined
      end
  end.
End Scan.

(** A cell passes when its value can be read and is not bad. *)
Definition passes {I V} (val : I -> option V) (bad : V -> bool) (c : I)
  : Prop :=
  exists v, val c = Some v /\ bad v = false.

(** ** The loops of the three scanning functions, cell by cell *)

(** [checkDarcyStability], loop variables [(x,y,z)]. *)
Definition advection_val (d : DEM) (c : Z * Z * Z) : option Float3 :=
  v_at d c.1.1 c.1.2 c.2.
Definition advection_bad (d : DEM) (v : Float3) : bool :=
  Fgt (courant_number d v) F1_0.
Definition advection_report (c : Z * Z * Z) (v : Float3) : Diag :=
  AdvectionUnstable c.1.1 c.1.2 c.2 v.

(** The same object with another velocity array. *)
Definition with_velocity (d : DEM) (v : list Float3) : DEM :=
  set_darcy d
    (mkDarcy (darcy_nx (darcy d)) (darcy_ny (darcy d)) (darcy_nz (darcy d))
             (darcy_dx (darcy d)) (darcy_dy (darcy d)) (darcy_dz (darcy d))
             (darcy_p (darcy d)) v (darcy_phi (darcy d))
             (darcy_dphi (darcy d)) (darcy_norm (darcy d))
             (darcy_f_p (darcy d))).

(** The residual functions, loop variables [(z,y,x)]. *)
Definition residual_val (d : DEM) (c : Z * Z * Z) : option Float :=
  norm_at d c.2 c.1.2 c.1.1.
Definition residual_bad (v : Float) : bool := Fne v v.
Definition residual_report (d : DEM) (c : Z * Z * Z) (v : Float) : Diag :=
  nan_report d v c.2 c.1.2 c.1.1.
Definition residual_cells (d : DEM) : list (Z * Z * Z) :=
  cells3 (at2 (grid_num (grid d))) (at1 (grid_num (grid d)))
         (at0 (grid_num (grid d))).

(** The update of [max_norm_res] by one residual. *)
Definition max_upd (max_norm_res norm_res : Float) : Float :=
  if Fgt norm_res max_norm_res then norm_res else max_norm_res.

(** The divisor of the mean, [grid.num[0]*grid.num[1]*grid.num[2]]. *)
Definition residual_count (d : DEM) : Float :=
  Float_of_Z (to_uint (at0 (grid_num (grid d)) * at1 (grid_num (grid d))
                       * at2 (grid_num (grid d)))).

Definition is_zero (a : Float) : bool :=
  match a with S754_zero _ => true | _ => false end.

(** ** Classes of [Float] values used in the sign analysis *)

(** [a] carries sign bit [s], or is NaN. *)
Definition sign_or_nan (s : bool) (a : Float) : bool :=
  match a with
  | S754_nan => true
  | S754_zero s' | S754_infinity s' | S754_finite s' _ _ => Bool.eqb s' s
  end.

(** [a] is a zero of either sign, or NaN. *)
Definition zero_or_nan (a : Float) : bool :=
  match a with
  | S754_nan | S754_zero _ => true
  | _ => false
  end.

(** [a] is negative, a zero, or NaN. *)
Definition nonpos_or_nan (a : Float) : bool :=
  match a with
  | S754_nan | S754_zero _ => true
  | S754_infinity s | S754_finite s _ _ => s
  end.

(** ** Sample objects *)

(** The quotient [a/b] of two integers, rounded once. *)
Definition Fq (a b : Z) : Float := Fdiv (Float_of_Z a) (Float_of_Z b).

(** A cubic grid of [n] cells and length [L] per axis, with all arrays
    allocated, uniform velocity [v] and the residuals [norm]. *)
Definition sample_DEM (n : Z) (L mu dt : Float) (v : Float3)
    (norm : list Float) : DEM :=
  let ncells := Z.to_nat (darcyCells (blank_DEM n n n)) in
  mkDEM (mkGrid (mkND3 L L L) (mkND3 n n n)) (mkTime dt (Float_of_Z 7))
        (mkParams mu) 0 0
        (mkDarcy n n n F0 F0 F0
           (replicate ncells F0) (replicate ncells v) (replicate ncells F0)
           (replicate ncells F0) norm []).

(** The scenario of the specification: [nx = ny = nz = 4], length [4.0]
    per axis, viscosity [0.1], time step [2.0], velocity [(0.3,0.3,0.3)]
    everywhere. *)
Definition scenario_DEM : DEM :=
  sample_DEM 4 (Float_of_Z 4) (Fq 1 10) (Float_of_Z 2)
    (mkFloat3 (Fq 3 10) (Fq 3 10) (Fq 3 10)) (replicate 216 F0).

(** A grid of two cells per axis whose residuals are zero except for
    [+inf] in cell [(0,0,0)] and [-inf] in cell [(1,0,0)]. *)
Definition opposite_infinities_DEM : DEM :=
  sample_DEM 2 (Float_of_Z 2) (Fq 1 10) F1_0 (mkFloat3 F0 F0 F0)
    (<[22%nat := S754_infinity true]>
       (<[21%nat := S754_infinity false]> (replicate 64 F0))).

(** A single cell with residual zero. *)
Definition one_cell_zero_DEM : DEM :=
  sample_DEM 1 F1_0 (Fq 1 10) F1_0 (mkFloat3 F0 F0 F0) (replicate 27 F0).

(** A grid of two cells per axis with residual [3] in cell [(1,0,1)] and
    zero elsewhere. *)
Definition one_peak_DEM : DEM :=
  sample_DEM 2 (Float_of_Z 2) (Fq 1 10) F1_0 (mkFloat3 F0 F0 F0)
    (<[38%nat := Float_of_Z 3]> (replicate 64 F0)).

(** A grid of two cells per axis with a NaN residual in cell [(1,0,1)]
    and again in cell [(0,1,1)], zero elsewhere. *)
Definition nan_DEM : DEM :=
  sample_DEM 2 (Float_of_Z 2) (Fq 1 10) (Float_of_Z 2) (mkFloat3 F0 F0 F0)
    (<[41%nat := S754_nan]>
       (<[38%nat := S754_nan]> (replicate 64 F0))).

(** A single cell of size one with time step one, viscosity [0.5] and
    velocity [(1,0,0)]: both stability numbers sit on their bounds. *)
Definition on_bounds_DEM : DEM :=
  sample_DEM 1 F1_0 F0_5 F1_0 (mkFloat3 F1_0 F0 F0) (replicate 27 F0).

(** Two cells per axis, cell size one, time step one, viscosity [0.1] and
    the uniform velocity [(-10^30, 0, 0)]. *)
Definition backward_DEM : DEM :=
  sample_DEM 2 (Float_of_Z 2) (Fq 1 10) F1_0
    (mkFloat3 (SFopp (Float_of_Z (10 ^ 30))) F0 F0) (replicate 64 F0).

(** Memory holding zeros. *)
Definition zero_Fresh : Fresh :=
  mkFresh (fun _ => F0) (fun _ => mkFloat3 F0 F0 F0) (fun _ => F0)
          (fun _ => F0) (fun _ => F0) (fun _ => mkFloat4 F0 F0 F0 F0).

(** A grid of [2 x 3 x 1] cells and five particles, before allocation. *)
Definition unallocated_DEM : DEM :=
  mkDEM (mkGrid (mkND3 F1_0 F1_0 F1_0) (mkND3 2 3 1))
        (mkTime F1_0 F0) (mkParams F0) 5 0 (blank_Darcy 0 0 0).

(** A grid of [65534 x 65534 x 1] cells and five particles, before
    allocation. *)
Definition wide_unallocated_DEM : DEM :=
  mkDEM (mkGrid (mkND3 F1_0 F1_0 F1_0) (mkND3 65534 65534 1))
        (mkTime F1_0 F0) (mkParams F0) 5 0 (blank_Darcy 0 0 0).

(** The arrays of the field store are the same in [d] and [d']. *)
Definition same_fields (d d' : DEM) : Prop :=
  darcy_p (darcy d') = darcy_p (darcy d) /\
  darcy_v (darcy d') = darcy_v (darcy d) /\
  darcy_phi (darcy d') = darcy_phi (darcy d) /\
  darcy_dphi (darcy d') = darcy_dphi (darcy d) /\
  darcy_norm (darcy d') = darcy_norm (darcy d) /\
  darcy_f_p (darcy d') = darcy_f_p (darcy d).

(** ** The cell-face velocity grid *)

(** Coordinates addressed by [d_vidx]: the velocity nodes [0..n] of each
    axis with one ghost node on either side, [n+3] positions per axis. *)
Definition padded_v (d : DEM) (x y z : Z) : Prop :=
  -1 <= x <= darcy_nx (darcy d) + 1 /\
  -1 <= y <= darcy_ny (darcy d) + 1 /\
  -1 <= z <= darcy_nz (darcy d) + 1.

(** A scalar-grid coordinate that is no interior cell. *)
Definition ghost (d : DEM) (x y z : Z) : Prop :=
  padded d x y z /\ ~ interior d x y z.

(** The same object with another residual array. *)
Definition with_norm (d : DEM) (norm : list Float) : DEM :=
  set_darcy d
    (mkDarcy (darcy_nx (darcy d)) (darcy_ny (darcy d)) (darcy_nz (darcy d))
             (darcy_dx (darcy d)) (darcy_dy (darcy d)) (darcy_dz (darcy d))
             (darcy_p (darcy d)) (darcy_v (darcy d)) (darcy_phi (darcy d))
             (darcy_dphi (darcy d)) norm (darcy_f_p (darcy d))).

(** The same object with another time step. *)
Definition with_dt (d : DEM) (dt : Float) : DEM :=
  mkDEM (grid d) (mkTime dt (time_current (time d))) (params d) (np d)
        (verbose d) (darcy d).

(** ** Order of [Float] values *)

(** A key that orders the [Float] values other than NaN as [>] does:
    class first (negative infinity, negative, zero, positive, positive
    infinity), then exponent and mantissa, both negated for negative
    numbers. *)
Definition Fkey (a : Float) : Z * Z * Z :=
  match a with
  | S754_zero _ | S754_nan => (0, 0, 0)
  | S754_infinity false => (2, 0, 0)
  | S754_infinity true => (-2, 0, 0)
  | S754_finite false m e => (1, e, Z.pos m)
  | S754_finite true m e => (-1, - e, Z.neg m)
  end.

(** Zero or a finite number. *)
Definition is_finite (a : Float) : bool :=
  match a with
  | S754_zero _ | S754_finite _ _ _ => true
  | _ => false
  end.

(** Two calls end alike: both return, both leave the process with the
    same status and report, or both read outside an array. *)
Definition same_ending {A B} (o : outcome A) (o' : outcome B) : Prop :=
  match o, o' with
  | Returned _, Returned _ => True
  | Exited st msg, Exited st' msg' => st = st' /\ msg = msg'
  | Undefined, Undefined => True
  | _, _ => False
  end.

(** ** Output *)

(** A [FILE] pointer: one of the standard streams or a file opened by name. *)
Inductive Stream :=
| Stdout
| Stderr
| FileStream (filename : string).

(** What is handed to [fprintf] after the format, or to [<<]. *)
Inductive Arg :=
| AInt (n : Z)
| AFloat (a : Float)
| AStr (s : string)
| AEndl.                (* std::endl *)

(** One output statement or file operation.  Format strings are kept as
    the source writes them, escapes included. *)
Inductive Event :=
| Fprintf (stream : Stream) (format : string) (args : list Arg)
| Cout (items : list Arg)     (* std::cout << item << item ... *)
| Fopen (filename mode : string)
| Fclose (filename : string).

(** The [Float] values handed to [fprintf], in the order written. *)
Definition floats_of_args (args : list Arg) : list Float :=
  args ≫= (fun a => match a with AFloat x => [x] | _ => [] end).

Definition printed_floats (out : list Event) : list Float :=
  out ≫= (fun e => match e with
                   | Fprintf _ _ args => floats_of_args args
                   | _ => []
                   end).

(** The integers handed to [fprintf], in the order written. *)
Definition printed_ints (out : list Event) : list Z :=
  out ≫= (fun e => match e with
                   | Fprintf _ _ args =>
                       args ≫= (fun a => match a with
                                         | AInt n => [n]
                                         | _ => []
                                         end)
                   | _ => []
                   end).

(** ** Fluid parameters *)

(** [DEM::initDarcy]; [out] is what has been written so far. *)
Definition initDarcy (out : list Event) : M (list Event) :=
  d <- get;;
  let dc := darcy d in
  (* Cell size *)
  let dx := Fdiv (at0 (grid_L (grid d))) (Float_of_Z (darcy_nx dc)) in
  let dy := Fdiv (at1 (grid_L (grid d))) (Float_of_Z (darcy_ny dc)) in
  let dz := Fdiv (at2 (grid_L (grid d))) (Float_of_Z (darcy_nz dc)) in
  _ <- put (set_darcy d
              (mkDarcy (darcy_nx dc) (darcy_ny dc) (darcy_nz dc) dx dy dz
                       (darcy_p dc) (darcy_v dc) (darcy_phi dc)
                       (darcy_dphi dc) (darcy_norm dc) (darcy_f_p dc)));;
  if verbose d =? 1 then
    ret (out ++
         [Cout [AStr "  - Fluid grid dimensions: "; AInt (darcy_nx dc);
                AStr "*"; AInt (darcy_ny dc); AStr "*"; AInt (darcy_nz dc);
                AEndl];
          Cout [AStr "  - Fluid grid cell size: "; AFloat dx;
                AStr "*"; AFloat dy; AStr "*"; AFloat dz; AEndl]])
  else ret out.

(** ** Printing and writing arrays *)

(** 1: Enable color output in array printing functions, 0: Disable *)
Definition color_output : Z := 0.

(** [for (i = lo; i <= hi; i++) body]. *)
Definition for_from_to {S} (lo hi : Z) (body : Z -> S -> M S) (s : S) : M S :=
  for_each (seqZ lo (hi - lo + 1)) body s.

(** [for (i = hi; i >= lo; i--) body]. *)
Definition for_down_to {S} (hi lo : Z) (body : Z -> S -> M S) (s : S) : M S :=
  for_each (reverse (seqZ lo (hi - lo + 1))) body s.

(** [DEM::printDarcyArray] for a scalar array [Float* arr]. *)
Definition printDarcyArray (stream : Stream) (arr : list Float)
    (out : list Event) : M (list Event) :=
  d <- get;;
  (* show ghost nodes *)
  for_down_to (darcy_nz (darcy d)) (-1) (fun z out => (* top to bottom *)
    out <-
      for_from_to (-1) (darcy_ny (darcy d)) (fun y out =>
        out <-
          for_from_to (-1) (darcy_nx (darcy d)) (fun x out =>
            if (x >? -1) && (x <? darcy_nx (darcy d)) &&
               (y >? -1) && (y <? darcy_ny (darcy d)) &&
               (z >? -1) && (z <? darcy_nz (darcy d))
            then
              a <- read arr (d_idx d x y z);;
              ret (out ++ [Fprintf stream "%f\t" [AFloat a]])
            else (* ghost node *)
              if negb (color_output =? 0) then
                a <- read arr (d_idx d x y z);;
                ret (out ++
                     [Fprintf stream "\x1b[30;1m%f\x1b[0m\t" [AFloat a]])
              else
                a <- read arr (d_idx d x y z);;
                ret (out ++ [Fprintf stream "%f\t" [AFloat a]]))
            out;;
        ret (out ++ [Fprintf stream "\n" []]))
        (out ++ [Fprintf stream "z = %d\n" [AInt z]]);;
    ret (out ++ [Fprintf stream "\n" []])) out.

(** [DEM::printDarcyArray] for a scalar array, with description. *)
Definition printDarcyArray_desc (stream : Stream) (arr : list Float)
    (desc : string) (out : list Event) : M (list Event) :=
  printDarcyArray stream arr
    (out ++ [Cout [AStr "\n"; AStr desc; AStr ":\n"]]).

(** [DEM::printDarcyArray] for a vector array [Float3* arr]. *)
Definition printDarcyArray3 (stream : Stream) (arr : list Float3)
    (out : list Event) : M (list Event) :=
  d <- get;;
  for_upto (darcy_nz (darcy d)) (fun z out =>
    out <-
      for_upto (darcy_ny (darcy d)) (fun y out =>
        out <-
          for_upto (darcy_nx (darcy d)) (fun x out =>
            a <- read arr (d_idx d x y z);;
            b <- read arr (d_idx d x y z);;
            c <- read arr (d_idx d x y z);;
            ret (out ++ [Fprintf stream "%f,%f,%f\t"
                           [AFloat (f3_x a); AFloat (f3_y b);
                            AFloat (f3_z c)]]))
            out;;
        ret (out ++ [Fprintf stream "\n" []]))
        out;;
    ret (out ++ [Fprintf stream "\n" []])) out.

(** [DEM::printDarcyArray] for a vector array, with description. *)
Definition printDarcyArray3_desc (stream : Stream) (arr : list Float3)
    (desc : string) (out : list Event) : M (list Event) :=
  printDarcyArray3 stream arr
    (out ++ [Cout [AStr "\n"; AStr desc; AStr ":\n"]]).

(** [DEM::writeDarcyArray] for a scalar array; [fopen_ok] tells for
    which names [fopen(filename,"w")] gives a stream. *)
Definition writeDarcyArray (fopen_ok : string -> bool) (array : list Float)
    (filename : string) (out : list Event) : M (list Event) :=
  if fopen_ok filename then
    out <- printDarcyArray (FileStream filename) array
             (out ++ [Fopen filename "w"]);;
    ret (out ++ [Fclose filename])
  else
    ret (out ++ [Fprintf Stderr "Error, could not open %s.\n"
                   [AStr filename]]).

(** [DEM::writeDarcyArray] for a vector array. *)
Definition writeDarcyArray3 (fopen_ok : string -> bool) (array : list Float3)
    (filename : string) (out : list Event) : M (list Event) :=
  if fopen_ok filename then
    out <- printDarcyArray3 (FileStream filename) array
             (out ++ [Fopen filename "w"]);;
    ret (out ++ [Fclose filename])
  else
    ret (out ++ [Fprintf Stderr "Error, could not open %s.\n"
                   [AStr filename]]).

(** The padded coordinates in the order the scalar dump prints them:
    [z] from the top down, then [y], then [x]. *)
Definition scalar_dump_cells (d : DEM) : list (Z * Z * Z) :=
  z ← reverse (seqZ (-1) (darcy_nz (darcy d) - -1 + 1));
  y ← seqZ (-1) (darcy_ny (darcy d) - -1 + 1);
  x ← seqZ (-1) (darcy_nx (darcy d) - -1 + 1);
  [(x, y, z)].

(** The interior coordinates in the order the vector dump prints them. *)
Definition vector_dump_cells (d : DEM) : list (Z * Z * Z) :=
  z ← seqZ 0 (darcy_nz (darcy d));
  y ← seqZ 0 (darcy_ny (darcy d));
  x ← seqZ 0 (darcy_nx (darcy d));
  [(x, y, z)].

(** A call that neither changes the object nor ends the process. *)
Definition quiet {A} (m : M A) : Prop :=
  forall d, snd (m d) = d /\ forall st msg, fst (m d) <> Exited st msg.

(** What the scalar dump writes when every padded node can be read: for
    each slice a header, the rows of values each closed by a line break,
    and a line break. *)
Definition scalar_cell (stream : Stream) (arr : list Float) (d : DEM)
    (x y z : Z) : Event :=
  Fprintf stream "%f\t"
    [AFloat (default F0 (arr !! Z.to_nat (d_idx d x y z)))].

Definition scalar_dump (stream : Stream) (arr : list Float) (d : DEM)
  : list Event :=
  z ← reverse (seqZ (-1) (darcy_nz (darcy d) - -1 + 1));
  [Fprintf stream "z = %d\n" [AInt z]] ++
  (y ← seqZ (-1) (darcy_ny (darcy d) - -1 + 1);
   (x ← seqZ (-1) (darcy_nx (darcy d) - -1 + 1);
    [scalar_cell stream arr d x y z]) ++ [Fprintf stream "\n" []]) ++
  [Fprintf stream "\n" []].

(** What the vector dump writes when every interior cell can be read. *)
Definition vector_cell (stream : Stream) (arr : list Float3) (d : DEM)
    (x y z : Z) : Event :=
  let v := default (mkFloat3 F0 F0 F0) (arr !! Z.to_nat (d_idx d x y z)) in
  Fprintf stream "%f,%f,%f\t" [AFloat (f3_x v); AFloat (f3_y v);
                               AFloat (f3_z v)].

Definition vector_dump (stream : Stream) (arr : list Float3) (d : DEM)
  : list Event :=
  z ← seqZ 0 (darcy_nz (darcy d));
  (y ← seqZ 0 (darcy_ny (darcy d));
   (x ← seqZ 0 (darcy_nx (darcy d));
    [vector_cell stream arr d x y z]) ++ [Fprintf stream "\n" []]) ++
  [Fprintf stream "\n" []].

(** ** Properties of the index mapping *)

Lemma to_uint_small n : 0 <= n < UINT_MODULUS -> to_uint n = n.
Proof. intros H. unfold to_uint. now apply Z.mod_small. Qed.

Lemma to_uint_range n : 0 <= to_uint n < UINT_MODULUS.
Proof. unfold to_uint. apply Z.mod_pos_bound. reflexivity. Qed.

(** Two digits in base [w] determine the number. *)
Lemma radix_inj w a b a' b' :
  0 <= a < w -> 0 <= a' < w ->
  a + w * b = a' + w * b' -> a = a' /\ b = b'.
Proof.
  intros Ha Ha' E.
  assert (b = b') by nia.
  subst b'. lia.
Qed.

(** The offset of a padded coordinate lies below the padded cell count. *)
Lemma offset_bound w h dd a b c :
  0 <= a < w -> 0 <= b < h -> 0 <= c < dd ->
  0 <= a + w * b + w * h * c < w * h * dd.
Proof.
  intros Ha Hb Hc.
  assert (Hwh : 0 < w * h) by (apply Z.mul_pos_pos; lia).
  assert (0 <= w * b) by (apply Z.mul_nonneg_nonneg; lia).
  assert (0 <= w * h * c) by (apply Z.mul_nonneg_nonneg; lia).
  assert (w * b <= w * (h - 1)) by (apply Z.mul_le_mono_nonneg_l; lia).
  assert (w * h * c <= w * h * (dd - 1))
    by (apply Z.mul_le_mono_nonneg_l; lia).
  lia.
Qed.

(** Every offset below [w*h*dd] has its three digits. *)
Lemma offset_digits w h dd k :
  0 < w -> 0 < h -> 0 <= k < w * h * dd ->
  0 <= k mod w < w /\ 0 <= (k / w) mod h < h /\ 0 <= k / w / h < dd /\
  k = k mod w + w * ((k / w) mod h) + w * h * (k / w / h).
Proof.
  intros Hw Hh Hk.
  pose proof (Z.mod_pos_bound k w Hw) as Ba.
  pose proof (Z.mod_pos_bound (k / w) h Hh) as Bb.
  pose proof (Z.div_mod k w ltac:(lia)) as Dk.
  pose proof (Z.div_mod (k / w) h ltac:(lia)) as Dq.
  split; [exact Ba|]. split; [exact Bb|]. split; [split|].
  - apply Z.div_pos; [apply Z.div_pos|]; lia.
  - apply Z.div_lt_upper_bound; [lia|].
    apply Z.div_lt_upper_bound; [lia|]. nia.
  - rewrite Dk at 1. rewrite Dq at 1. ring.
Qed.

(** A grid whose extents are positive and whose padded cell count is an
    [unsigned int]. *)
Section Index.

Variable d : DEM.
Hypothesis Hnx : 1 <= darcy_nx (darcy d).
Hypothesis Hny : 1 <= darcy_ny (darcy d).
Hypothesis Hnz : 1 <= darcy_nz (darcy d).
Hypothesis Hfit :
  (darcy_nx (darcy d) + 2) * (darcy_ny (darcy d) + 2)
    * (darcy_nz (darcy d) + 2) < UINT_MODULUS.

Lemma darcyCells_exact :
  darcyCells d = (darcy_nx (darcy d) + 2) * (darcy_ny (darcy d) + 2)
                 * (darcy_nz (darcy d) + 2).
Proof. unfold darcyCells. apply to_uint_small. nia. Qed.

Lemma d_idx_exact x y z :
  padded d x y z ->
  d_idx d x y z = (x + 1) + (darcy_nx (darcy d) + 2) * (y + 1)
                  + (darcy_nx (darcy d) + 2) * (darcy_ny (darcy d) + 2)
                    * (z + 1)
  /\ 0 <= d_idx d x y z < darcyCells d.
Proof.
  intros (Hx & Hy & Hz).
  pose proof (offset_bound (darcy_nx (darcy d) + 2) (darcy_ny (darcy d) + 2)
                (darcy_nz (darcy d) + 2) (x + 1) (y + 1) (z + 1)
                ltac:(lia) ltac:(lia) ltac:(lia)) as B.
  rewrite darcyCells_exact. unfold d_idx.
  rewrite to_uint_small by lia. split; [reflexivity | lia].
Qed.

Lemma d_idx_injective_fit : d_idx_injective d.
Proof.
  intros x y z x' y' z' P P' E.
  destruct (d_idx_exact x y z P) as [E1 _].
  destruct (d_idx_exact x' y' z' P') as [E2 _].
  rewrite E1, E2 in E. clear E1 E2.
  destruct P as (Hx & Hy & Hz), P' as (Hx' & Hy' & Hz').
  destruct (radix_inj (darcy_nx (darcy d) + 2) (x + 1)
              ((y + 1) + (darcy_ny (darcy d) + 2) * (z + 1))
              (x' + 1) ((y' + 1) + (darcy_ny (darcy d) + 2) * (z' + 1)))
    as [Ex E']; [lia | lia | lia | ].
  destruct (radix_inj (darcy_ny (darcy d) + 2) (y + 1) (z + 1)
              (y' + 1) (z' + 1)) as [Ey Ez]; [lia | lia | lia | ].
  lia.
Qed.

Lemma d_idx_covers_fit : d_idx_covers d.
Proof.
  intros k. split.
  - intros (x & y & z & P & E). subst k. now apply d_idx_exact.
  - intros Hk. rewrite darcyCells_exact in Hk.
    destruct (offset_digits (darcy_nx (darcy d) + 2)
                (darcy_ny (darcy d) + 2) (darcy_nz (darcy d) + 2) k
                ltac:(lia) ltac:(lia) Hk) as (Ba & Bb & Bc & Ek).
    set (a := k mod (darcy_nx (darcy d) + 2)) in *.
    set (b := (k / (darcy_nx (darcy d) + 2))
                mod (darcy_ny (darcy d) + 2)) in *.
    set (c := k / (darcy_nx (darcy d) + 2) / (darcy_ny (darcy d) + 2)) in *.
    assert (P : padded d (a - 1) (b - 1) (c - 1))
      by (unfold padded; lia).
    exists (a - 1), (b - 1), (c - 1). split; [exact P|].
    destruct (d_idx_exact _ _ _ P) as [E _]. rewrite E, Ek. ring.
Qed.

End Index.

(** C1 (as stated, for every grid): refuted.  On the grid
    [nx = ny = 65534], [nz = 1] the product [(nx+2)*(ny+2)] is [2^32],
    which is [0] as an [unsigned int]: the [z] coordinate no longer
    contributes to the offset and the ghost nodes [(-1,-1,-1)] and
    [(-1,-1,0)] share offset [0]. *)
Lemma d_idx_not_injective_on_wide_grid :
  let d := blank_DEM 65534 65534 1 in
  1 <= darcy_nx (darcy d) /\ 1 <= darcy_ny (darcy d) /\
  1 <= darcy_nz (darcy d) /\
  padded d (-1) (-1) (-1) /\ padded d (-1) (-1) 0 /\
  d_idx d (-1) (-1) (-1) = d_idx d (-1) (-1) 0 /\
  ~ d_idx_injective d /\ ~ (d_idx_injective d /\ d_idx_covers d).
Proof.
  cbn zeta.
  assert (P1 : padded (blank_DEM 65534 65534 1) (-1) (-1) (-1))
    by (unfold padded; cbn; lia).
  assert (P2 : padded (blank_DEM 65534 65534 1) (-1) (-1) 0)
    by (unfold padded; cbn; lia).
  assert (E : d_idx (blank_DEM 65534 65534 1) (-1) (-1) (-1)
              = d_idx (blank_DEM 65534 65534 1) (-1) (-1) 0)
    by (vm_compute; reflexivity).
  assert (N : ~ d_idx_injective (blank_DEM 65534 65534 1)).
  { intros Inj. destruct (Inj _ _ _ _ _ _ P1 P2 E) as (_ & _ & Hz).
    discriminate Hz. }
  repeat split; try (cbn; lia); try assumption; try apply P1; try apply P2.
  intros [Inj _]. exact (N Inj).
Qed.

(** C1 (amended): on every grid with [nx, ny, nz >= 1] whose padded cell
    count [(nx+2)*(ny+2)*(nz+2)] is representable as an [unsigned int],
    [d_idx] is injective over the padded coordinate range and its offsets
    over that range are exactly [0 .. darcyCells - 1]. *)
Theorem d_idx_bijective_when_count_fits (d : DEM) :
  1 <= darcy_nx (darcy d) ->
  1 <= darcy_ny (darcy d) ->
  1 <= darcy_nz (darcy d) ->
  (darcy_nx (darcy d) + 2) * (darcy_ny (darcy d) + 2)
    * (darcy_nz (darcy d) + 2) < UINT_MODULUS ->
  d_idx_injective d /\ d_idx_covers d /\
  darcyCells d = (darcy_nx (darcy d) + 2) * (darcy_ny (darcy d) + 2)
                 * (darcy_nz (darcy d) + 2).
Proof.
  intros H1 H2 H3 H4. split; [|split].
  - now apply d_idx_injective_fit.
  - now apply d_idx_covers_fit.
  - now apply darcyCells_exact.
Qed.

Lemma d_idx_bijective_when_count_fits_witness :
  let d := blank_DEM 2 3 1 in
  d_idx_injective d /\ d_idx_covers d /\ darcyCells d = 60.
Proof.
  apply (d_idx_bijective_when_count_fits (blank_DEM 2 3 1));
    vm_compute; congruence.
Defined.

(** ** Loops as scans *)

Lemma bind_get {A} (k : DEM -> M A) d : bind get k d = k d d.
Proof. reflexivity. Qed.

Section ScanFacts.
Context {I V S : Type}.
Variable val : I -> option V.
Variable bad : V -> bool.
Variable report : I -> V -> Diag.
Variable upd : S -> V -> S.

Local Abbreviation scan := (scan val bad report upd).
Local Abbreviation scan_step := (scan_step val bad report upd).

Lemma scan_app l1 l2 s :
  scan (l1 ++ l2) s =
  match scan l1 s with
  | Returned s' => scan l2 s'
  | Exited st msg => Exited st msg
  | Undefined => Undefined
  end.
Proof.
  revert s. induction l1 as [|c l1 IH]; intros s; simpl; [reflexivity|].
  destruct (scan_step c s); auto.
Qed.

Lemma scan_singleton c s : scan [c] s = scan_step c s.
Proof. simpl. now destruct (scan_step c s). Qed.

(** A loop whose body runs a scan of [f j] is a scan of the
    concatenation. *)
Lemma for_each_scan_bind {J} (f : J -> list I) (body : J -> S -> M S)
    (d : DEM) (l : list J) :
  (forall j s, body j s d = (scan (f j) s, d)) ->
  forall s, for_each l body s d = (scan (l ≫= f) s, d).
Proof.
  intros Hb. induction l as [|j l IH]; intros s; [reflexivity|].
  rewrite bind_cons, scan_app. simpl. unfold bind. rewrite Hb.
  destruct (scan (f j) s); auto.
Qed.

(** A scan returns exactly when every cell passes. *)
Lemma scan_returned l s s' :
  scan l s = Returned s' -> Forall (passes val bad) l.
Proof.
  revert s. induction l as [|c l IH]; intros s; simpl; [constructor|].
  unfold scan_step.
  destruct (val c) as [v|] eqn:Ev; [|discriminate].
  destruct (bad v) eqn:Eb; [discriminate|].
  intros H. constructor; [now exists v | eauto].
Qed.

Lemma scan_all_pass l s :
  Forall (passes val bad) l -> exists s', scan l s = Returned s'.
Proof.
  intros H. revert s. induction H as [|c l (v & Ev & Eb) _ IH]; intros s.
  - now exists s.
  - simpl. unfold scan_step. rewrite Ev, Eb. apply IH.
Qed.

(** A scan exits exactly at the first cell whose value is bad, provided
    all cells before it pass; it reports that cell. *)
Lemma scan_exited l s st msg :
  scan l s = Exited st msg <->
  exists l1 c v l2,
    l = l1 ++ c :: l2 /\ Forall (passes val bad) l1 /\
    val c = Some v /\ bad v = true /\ st = 1 /\ msg = report c v.
Proof.
  revert s. induction l as [|c l IH]; intros s; simpl.
  - split; [discriminate|].
    intros (l1 & c & v & l2 & E & _). now destruct l1.
  - unfold scan_step. destruct (val c) as [v|] eqn:Ev.
    + destruct (bad v) eqn:Eb.
      * split.
        -- intros [= <- <-]. exists [], c, v, l. repeat split; auto.
        -- intros (l1 & c' & v' & l2 & E & Hp & Ev' & Eb' & -> & ->).
           destruct l1 as [|c1 l1]; simpl in E; injection E as -> ->.
           ++ rewrite Ev in Ev'. now injection Ev' as ->.
           ++ apply Forall_cons in Hp as [(v1 & Ev1 & Eb1) _].
              rewrite Ev in Ev1. injection Ev1 as ->. congruence.
      * rewrite IH. split.
        -- intros (l1 & c' & v' & l2 & -> & Hp & Hv).
           exists (c :: l1), c', v', l2. repeat split; try tauto.
           constructor; [now exists v | assumption].
        -- intros (l1 & c' & v' & l2 & E & Hp & Ev' & Eb' & Hr).
           destruct l1 as [|c1 l1]; simpl in E; injection E as -> ->.
           ++ congruence.
           ++ apply Forall_cons in Hp as [_ Hp].
              exists l1, c', v', l2. auto.
    + split; [discriminate|].
      intros (l1 & c' & v' & l2 & E & Hp & Ev' & Eb' & Hr).
      destruct l1 as [|c1 l1]; simpl in E; injection E as -> ->.
      * congruence.
      * apply Forall_cons in Hp as [(v1 & Ev1 & _) _]. congruence.
Qed.

(** Where every cell can be read, a scan exits as soon as some cell is
    bad. *)
Lemma scan_some_bad l s c v :
  Forall (fun c => is_Some (val c)) l ->
  c ∈ l -> val c = Some v -> bad v = true ->
  exists st msg, scan l s = Exited st msg.
Proof.
  intros Hall. revert s. induction Hall as [|c0 l [v0 Ev0] _ IH];
    intros s Hin Ev Eb.
  - now apply elem_of_nil in Hin.
  - simpl. unfold scan_step. rewrite Ev0.
    destruct (bad v0) eqn:Eb0; [eauto|].
    apply elem_of_cons in Hin as [->|Hin]; [congruence|].
    now apply IH.
Qed.

(** The running local after a scan that returns: the values folded in
    scan order. *)
Lemma scan_fold l s s' :
  scan l s = Returned s' ->
  exists vs, Forall2 (fun c v => val c = Some v) l vs /\
             Forall (fun v => bad v = false) vs /\
             s' = foldl upd s vs.
Proof.
  revert s. induction l as [|c l IH]; intros s; simpl.
  - intros [= <-]. exists []. repeat constructor.
  - unfold scan_step. destruct (val c) as [v|] eqn:Ev; [|discriminate].
    destruct (bad v) eqn:Eb; [discriminate|].
    intros H. destruct (IH _ H) as (vs & Hv & Hb & ->).
    exists (v :: vs). repeat constructor; auto.
Qed.
End ScanFacts.

Lemma for3_scan {V S} (val : Z * Z * Z -> option V) bad report
    (upd : S -> V -> S) (body : Z -> Z -> Z -> S -> M S) (d : DEM) n1 n2 n3 :
  (forall i j k s,
     body i j k s d = (scan_step val bad report upd (i, j, k) s, d)) ->
  forall s,
    for_upto n1 (fun i s =>
      for_upto n2 (fun j s =>
        for_upto n3 (fun k s => body i j k s) s) s) s d
    = (scan val bad report upd (cells3 n1 n2 n3) s, d).
Proof.
  intros Hb s. unfold for_upto, cells3.
  apply for_each_scan_bind. intros i s1.
  apply for_each_scan_bind. intros j s2.
  apply for_each_scan_bind. intros k s3.
  now rewrite scan_singleton.
Qed.

(** ** Scan order *)

Lemma lex3_irrefl a : ~ lex3 a a.
Proof. unfold lex3. lia. Qed.

Lemma lex3_trans a b c : lex3 a b -> lex3 b c -> lex3 a c.
Proof. unfold lex3. lia. Qed.

Lemma StronglySorted_seqZ m n : StronglySorted Z.lt (seqZ m n).
Proof.
  destruct (Z.le_gt_cases n 0) as [Hn|Hn].
  { rewrite seqZ_nil by lia. constructor. }
  rewrite <- (Z2Nat.id n) by lia. generalize (Z.to_nat n) as k. clear.
  induction k as [|k IH]; [constructor|].
  rewrite seqZ_S. apply StronglySorted_app_2; [|assumption|repeat constructor].
  intros x1 x2 H1 H2. apply elem_of_seqZ in H1.
  apply list_elem_of_singleton in H2. lia.
Qed.

Lemma StronglySorted_bind {A B} (RA : relation A) (RB : relation B)
    (f : A -> list B) (l : list A) :
  StronglySorted RA l ->
  (forall a, a ∈ l -> StronglySorted RB (f a)) ->
  (forall a a' b b', a ∈ l -> a' ∈ l -> RA a a' ->
                     b ∈ f a -> b' ∈ f a' -> RB b b') ->
  StronglySorted RB (l ≫= f).
Proof.
  induction 1 as [|a l Hl IH Ha]; intros Hf Hc; [constructor|].
  rewrite bind_cons. apply StronglySorted_app_2.
  - intros b b' Hb Hb'. apply list_elem_of_bind in Hb' as (a' & Hb' & Ha').
    apply (Hc a a'); auto; [left | now right |].
    rewrite Forall_forall in Ha. auto.
  - apply Hf. left.
  - apply IH.
    + intros a' Ha'. apply Hf. now right.
    + intros a1 a2 b1 b2 H1 H2. apply Hc; now right.
Qed.

Lemma elem_of_cells3 n1 n2 n3 i j k :
  (i, j, k) ∈ cells3 n1 n2 n3 <-> 0 <= i < n1 /\ 0 <= j < n2 /\ 0 <= k < n3.
Proof.
  unfold cells3. rewrite list_elem_of_bind. split.
  - intros (i' & H & Hi). apply list_elem_of_bind in H as (j' & H & Hj).
    apply list_elem_of_bind in H as (k' & H & Hk).
    apply list_elem_of_singleton in H. injection H as -> -> ->.
    apply elem_of_seqZ in Hi, Hj, Hk. lia.
  - intros (Hi & Hj & Hk). exists i. split; [|apply elem_of_seqZ; lia].
    apply list_elem_of_bind. exists j. split; [|apply elem_of_seqZ; lia].
    apply list_elem_of_bind. exists k. split; [|apply elem_of_seqZ; lia].
    now apply list_elem_of_singleton.
Qed.

Lemma StronglySorted_cells3 n1 n2 n3 :
  StronglySorted lex3 (cells3 n1 n2 n3).
Proof.
  unfold cells3.
  apply (StronglySorted_bind Z.lt); [apply StronglySorted_seqZ | | ].
  - intros i _.
    apply (StronglySorted_bind Z.lt); [apply StronglySorted_seqZ | | ].
    + intros j _.
      apply (StronglySorted_bind Z.lt); [apply StronglySorted_seqZ | | ].
      * intros k _. repeat constructor.
      * intros k k' b b' _ _ Hk Hb Hb'.
        apply list_elem_of_singleton in Hb, Hb'. subst. unfold lex3. simpl. lia.
    + intros j j' b b' _ _ Hj Hb Hb'.
      apply list_elem_of_bind in Hb as (k & Hb & _).
      apply list_elem_of_bind in Hb' as (k' & Hb' & _).
      apply list_elem_of_singleton in Hb, Hb'. subst. unfold lex3. simpl. lia.
  - intros i i' b b' _ _ Hi Hb Hb'.
    apply list_elem_of_bind in Hb as (j & Hb & _).
    apply list_elem_of_bind in Hb as (k & Hb & _).
    apply list_elem_of_bind in Hb' as (j' & Hb' & _).
    apply list_elem_of_bind in Hb' as (k' & Hb' & _).
    apply list_elem_of_singleton in Hb, Hb'. subst. unfold lex3. simpl. lia.
Qed.

(** In a list sorted by scan order, the cells before [c] are those that
    precede it in the order. *)
Lemma sorted_prefix l1 c l2 c' :
  StronglySorted lex3 (l1 ++ c :: l2) ->
  (c' ∈ l1 <-> c' ∈ l1 ++ c :: l2 /\ lex3 c' c).
Proof.
  intros Hs. apply StronglySorted_app in Hs as (H12 & _ & Hs2).
  apply StronglySorted_cons in Hs2 as [Hc _]. rewrite Forall_forall in Hc.
  split.
  - intros H. split; [apply elem_of_app; now left|].
    apply H12; [assumption | left].
  - intros [H Hlt]. apply elem_of_app in H as [H|H]; [assumption|].
    apply elem_of_cons in H as [->|H].
    + now apply lex3_irrefl in Hlt.
    + exfalso. apply (lex3_irrefl c). eapply lex3_trans; eauto.
Qed.

(** ** Comparisons of [Float] values *)

Lemma SFcompare_swap a b :
  SFcompare b a = option_map CompOpp (SFcompare a b).
Proof.
  destruct a as [sa|sa| |sa ma ea], b as [sb|sb| |sb mb eb]; simpl;
    try reflexivity; try (destruct sa; reflexivity);
    try (destruct sb; reflexivity);
    try (destruct sa, sb; reflexivity).
  rewrite (Z.compare_antisym ea eb).
  change (Pos.compare_cont Eq mb ma) with (Pos.compare mb ma).
  change (Pos.compare_cont Eq ma mb) with (Pos.compare ma mb).
  rewrite (Pos.compare_antisym ma mb).
  destruct sa, sb; simpl; try reflexivity;
    destruct (ea ?= eb); simpl; try reflexivity;
    destruct (ma ?= mb)%positive; reflexivity.
Qed.

Lemma Fgt_compare a b : Fgt a b = true <-> SFcompare a b = Some Gt.
Proof.
  unfold Fgt, SFltb. rewrite SFcompare_swap.
  destruct (SFcompare a b) as [[]|]; simpl; split; congruence.
Qed.

(** [a == b] excludes [a > b]. *)
Lemma Fgt_false_of_eqb a b : SFeqb a b = true -> Fgt a b = false.
Proof.
  intros H. destruct (Fgt a b) eqn:E; [|reflexivity].
  apply Fgt_compare in E. unfold SFeqb in H. rewrite E in H. discriminate.
Qed.

(** [a <= b] excludes [a > b]. *)
Lemma Fgt_false_of_leb a b : SFleb a b = true -> Fgt a b = false.
Proof.
  intros H. destruct (Fgt a b) eqn:E; [|reflexivity].
  apply Fgt_compare in E. unfold SFleb in H. rewrite E in H. discriminate.
Qed.

(** [fmin] picks one of its arguments, and none of them lies below the
    one it picks. *)
Lemma fmin_choice a b : fmin a b = a \/ fmin a b = b.
Proof.
  unfold fmin. destruct (is_nan a), (is_nan b), (SFltb b a); auto.
Qed.

Lemma Fgt_irrefl a : Fgt a a = false.
Proof.
  destruct (Fgt a a) eqn:E; [|reflexivity].
  pose proof E as E'. apply Fgt_compare in E'.
  unfold Fgt, SFltb in E. rewrite E' in E. discriminate.
Qed.

Lemma fmin_lower_bound a b :
  is_nan a = false -> is_nan b = false ->
  Fgt (fmin a b) a = false /\ Fgt (fmin a b) b = false.
Proof.
  intros Ha Hb. unfold fmin. rewrite Ha, Hb.
  destruct (SFltb b a) eqn:E.
  - split; [|apply Fgt_irrefl].
    destruct (Fgt b a) eqn:E'; [|reflexivity].
    apply Fgt_compare in E'. unfold SFltb in E. rewrite E' in E.
    discriminate.
  - split; [apply Fgt_irrefl | exact E].
Qed.

(** ** [checkDarcyStability] *)

Lemma checkDarcyStability_scan d :
  checkDarcyStability d =
  (if Fgt (diffusion_number d) F0_5 then Exited 1 DiffusionUnstable
   else scan (advection_val d) (advection_bad d) advection_report
          (fun _ _ => tt)
          (cells3 (darcy_nx (darcy d)) (darcy_ny (darcy d))
                  (darcy_nz (darcy d))) tt,
   d).
Proof.
  unfold checkDarcyStability. rewrite bind_get.
  destruct (Fgt (diffusion_number d) F0_5); [reflexivity|].
  apply (for3_scan (advection_val d) (advection_bad d) advection_report
           (fun _ _ => tt)
           (fun x y z (u : unit) =>
              v <- read (darcy_v (darcy d)) (d_idx d x y z);;
              if Fgt (courant_number d v) F1_0
              then exit 1 (AdvectionUnstable x y z v) else ret u)).
  intros i j k []. unfold bind, read, scan_step, advection_val, v_at. simpl.
  destruct (darcy_v (darcy d) !! Z.to_nat (d_idx d i j k)) as [v|];
    [|reflexivity].
  unfold advection_bad, ret, exit, advection_report. simpl.
  now destruct (Fgt (courant_number d v) F1_0).
Qed.

Lemma interior_cells3 d x y z :
  (x, y, z) ∈ cells3 (darcy_nx (darcy d)) (darcy_ny (darcy d))
                     (darcy_nz (darcy d))
  <-> interior d x y z.
Proof. apply elem_of_cells3. Qed.

(** The advection scan leaves at cell [(x,y,z)] with velocity [v] exactly
    when that cell is the first interior cell, in scan order, whose
    Courant number exceeds one. *)
Lemma advection_scan_exit d x y z v :
  scan (advection_val d) (advection_bad d) advection_report (fun _ _ => tt)
       (cells3 (darcy_nx (darcy d)) (darcy_ny (darcy d))
               (darcy_nz (darcy d))) tt
  = Exited 1 (AdvectionUnstable x y z v)
  <->
  interior d x y z /\ v_at d x y z = Some v /\
  Fgt (courant_number d v) F1_0 = true /\
  forall x' y' z',
    interior d x' y' z' -> stability_scan_before x' y' z' x y z ->
    exists v', v_at d x' y' z' = Some v' /\
               Fgt (courant_number d v') F1_0 = false.
Proof.
  rewrite scan_exited. split.
  - intros (l1 & [[x0 y0] z0] & v0 & l2 & E & Hp & Ev & Eb & _ & Hm).
    injection Hm as -> -> -> ->.
    assert (Hin : (x0, y0, z0) ∈ l1 ++ (x0, y0, z0) :: l2)
      by (apply elem_of_app; right; left).
    pose proof (StronglySorted_cells3 (darcy_nx (darcy d))
                  (darcy_ny (darcy d)) (darcy_nz (darcy d))) as Hs.
    rewrite E in Hs. rewrite <- E in Hin. apply interior_cells3 in Hin.
    repeat split; try assumption; try apply Hin.
    intros x' y' z' Hi Hlt.
    assert (H1 : (x', y', z') ∈ l1).
    { apply (sorted_prefix _ _ _ _ Hs). split; [|exact Hlt].
      rewrite <- E. now apply interior_cells3. }
    rewrite Forall_forall in Hp. exact (Hp _ H1).
  - intros (Hi & Ev & Eb & Hbefore).
    apply interior_cells3 in Hi.
    destruct (list_elem_of_split _ _ Hi) as (l1 & l2 & E).
    exists l1, (x, y, z), v, l2. repeat split; try assumption.
    pose proof (StronglySorted_cells3 (darcy_nx (darcy d))
                  (darcy_ny (darcy d)) (darcy_nz (darcy d))) as Hs.
    rewrite E in Hs. apply Forall_forall. intros [[x' y'] z'] H1.
    apply (sorted_prefix _ _ _ _ Hs) in H1 as [Hin Hlt].
    rewrite <- E in Hin. apply interior_cells3 in Hin.
    exact (Hbefore _ _ _ Hin Hlt).
Qed.

(** The run ends with the diffusion diagnostic exactly when the diffusion
    number exceeds one half; the exit status is then [1]. *)
Lemma diffusion_check_iff_st d st :
  fst (checkDarcyStability d) = Exited st DiffusionUnstable
  <-> Fgt (diffusion_number d) F0_5 = true /\ st = 1.
Proof.
  rewrite checkDarcyStability_scan. simpl.
  destruct (Fgt (diffusion_number d) F0_5).
  - split; [intros [= <-]; auto | intros [_ ->]; reflexivity].
  - split; [|intros [? _]; discriminate].
    intros H. apply scan_exited in H
      as (l1 & c & v & l2 & _ & _ & _ & _ & _ & Hm). discriminate Hm.
Qed.

(** C3: the run ends with the diffusion diagnostic exactly when
    [viscosity*dt/dmin^2 > 0.5], with [dmin] the smallest of the cell
    sizes [L/num]: above the bound it ends so, below it does not, whatever
    the velocity array holds (the test comes before any cell is read). *)
Theorem diffusion_check_iff (d : DEM) :
  diffusion_number d
  = (let dx := Fdiv (at0 (grid_L (grid d)))
                    (Float_of_Z (at0 (grid_num (grid d)))) in
     let dy := Fdiv (at1 (grid_L (grid d)))
                    (Float_of_Z (at1 (grid_num (grid d)))) in
     let dz := Fdiv (at2 (grid_L (grid d)))
                    (Float_of_Z (at2 (grid_num (grid d)))) in
     let dmin := fmin dx (fmin dy dz) in
     Fdiv (Fmul (params_mu (params d)) (time_dt (time d)))
          (Fmul dmin dmin)) /\
  (fst (checkDarcyStability d) = Exited 1 DiffusionUnstable
   <-> Fgt (diffusion_number d) F0_5 = true) /\
  (forall st, fst (checkDarcyStability d) = Exited st DiffusionUnstable
              <-> Fgt (diffusion_number d) F0_5 = true /\ st = 1) /\
  (SFcompare (diffusion_number d) F0_5 = Some Gt <->
   fst (checkDarcyStability d) = Exited 1 DiffusionUnstable) /\
  (SFcompare (diffusion_number d) F0_5 = Some Lt ->
   fst (checkDarcyStability d) <> Exited 1 DiffusionUnstable) /\
  (forall v',
     fst (checkDarcyStability (with_velocity d v'))
       = Exited 1 DiffusionUnstable
     <-> fst (checkDarcyStability d) = Exited 1 DiffusionUnstable).
Proof.
  pose proof diffusion_check_iff_st as Hst.
  assert (H1 : forall d,
             fst (checkDarcyStability d) = Exited 1 DiffusionUnstable
             <-> Fgt (diffusion_number d) F0_5 = true).
  { clear d. intros d. rewrite Hst. tauto. }
  split; [reflexivity|].
  split; [apply H1|]. split; [apply Hst|]. split; [|split].
  - rewrite H1. symmetry. apply Fgt_compare.
  - intros Hlt E. apply H1, Fgt_compare in E. congruence.
  - intros v'. rewrite !H1. reflexivity.
Qed.

Lemma diffusion_check_iff_witness :
  let d := mkDEM (mkGrid (mkND3 F1_0 F1_0 F1_0) (mkND3 1 1 1))
             (mkTime F1_0 F0) (mkParams (Fdiv F1_0 (Float_of_Z 4))) 0 0
             (blank_Darcy 1 1 1) in
  fst (checkDarcyStability d) <> Exited 1 DiffusionUnstable.
Proof.
  intros d. apply (diffusion_check_iff d). vm_compute. reflexivity.
Defined.

(** C4: with the diffusion bound satisfied, the run ends with the
    advection diagnostic for cell [(x,y,z)] and velocity [v] exactly when
    that cell is the first interior cell in scan order with
    [v.x*dt/dx + v.y*dt/dy + v.z*dt/dz > 1.0]; it ends with an advection
    diagnostic at all exactly when some interior cell exceeds the bound;
    and no other exit is possible. *)
Theorem advection_check_first_offender (d : DEM) :
  Fgt (diffusion_number d) F0_5 = false ->
  (forall x y z v,
     fst (checkDarcyStability d) = Exited 1 (AdvectionUnstable x y z v)
     <->
     interior d x y z /\ v_at d x y z = Some v /\
     Fgt (courant_number d v) F1_0 = true /\
     forall x' y' z',
       interior d x' y' z' -> stability_scan_before x' y' z' x y z ->
       exists v', v_at d x' y' z' = Some v' /\
                  Fgt (courant_number d v') F1_0 = false) /\
  ((forall x y z, interior d x y z -> is_Some (v_at d x y z)) ->
   ((exists x y z v, interior d x y z /\ v_at d x y z = Some v /\
                     Fgt (courant_number d v) F1_0 = true)
    <-> exists x y z v,
          fst (checkDarcyStability d)
          = Exited 1 (AdvectionUnstable x y z v))) /\
  (forall st msg,
     fst (checkDarcyStability d) = Exited st msg ->
     st = 1 /\ exists x y z v,
       msg = AdvectionUnstable x y z v /\ interior d x y z /\
       v_at d x y z = Some v).
Proof.
  intros Hdiff.
  assert (Hrun : fst (checkDarcyStability d) =
                 scan (advection_val d) (advection_bad d) advection_report
                   (fun _ _ => tt)
                   (cells3 (darcy_nx (darcy d)) (darcy_ny (darcy d))
                           (darcy_nz (darcy d))) tt).
  { rewrite checkDarcyStability_scan. simpl. now rewrite Hdiff. }
  rewrite Hrun.
  assert (Hany : forall st msg,
    scan (advection_val d) (advection_bad d) advection_report
      (fun _ _ => tt)
      (cells3 (darcy_nx (darcy d)) (darcy_ny (darcy d))
              (darcy_nz (darcy d))) tt = Exited st msg ->
    st = 1 /\ exists x y z v,
      msg = AdvectionUnstable x y z v /\ interior d x y z /\
      v_at d x y z = Some v).
  { intros st msg H. pose proof H as H'. apply scan_exited in H'
      as (l1 & [[x y] z] & v & l2 & E & _ & Ev & _ & -> & ->).
    split; [reflexivity|]. exists x, y, z, v.
    apply advection_scan_exit in H as (Hi & Hv & _). auto. }
  split; [|split].
  - intros x y z v. apply advection_scan_exit.
  - intros Hread. split.
    + intros (x & y & z & v & Hi & Ev & Eb).
      destruct (scan_some_bad (advection_val d) (advection_bad d)
                  advection_report (fun _ _ => tt)
                  (cells3 (darcy_nx (darcy d)) (darcy_ny (darcy d))
                          (darcy_nz (darcy d))) tt (x, y, z) v)
        as (st & msg & H); try assumption.
      * apply Forall_forall. intros [[x' y'] z'] Hin.
        apply interior_cells3 in Hin. now apply Hread.
      * now apply interior_cells3.
      * destruct (Hany _ _ H) as (-> & x0 & y0 & z0 & v0 & -> & _).
        now exists x0, y0, z0, v0.
    + intros (x & y & z & v & H). apply advection_scan_exit in H.
      exists x, y, z, v. tauto.
  - exact Hany.
Qed.

Lemma advection_check_first_offender_witness :
  fst (checkDarcyStability scenario_DEM)
  = Exited 1 (AdvectionUnstable 0 0 0 (mkFloat3 (Fq 3 10) (Fq 3 10) (Fq 3 10))).
Proof.
  apply (advection_check_first_offender scenario_DEM);
    [vm_compute; reflexivity|].
  split; [unfold interior; cbn; lia|].
  split; [vm_compute; reflexivity|].
  split; [vm_compute; reflexivity|].
  intros x' y' z' Hi Hlt. exfalso.
  unfold interior in Hi. unfold stability_scan_before, lex3 in Hlt.
  cbn in Hi, Hlt. lia.
Defined.

(** Every interior cell passing the Courant test lets the call return. *)
Lemma checkDarcyStability_returns d :
  Fgt (diffusion_number d) F0_5 = false ->
  (forall x y z, interior d x y z ->
     exists v, v_at d x y z = Some v /\
               Fgt (courant_number d v) F1_0 = false) ->
  fst (checkDarcyStability d) = Returned tt.
Proof.
  intros Hdiff Hcells. rewrite checkDarcyStability_scan. simpl.
  rewrite Hdiff.
  destruct (scan_all_pass (advection_val d) (advection_bad d)
              advection_report (fun _ _ => tt)
              (cells3 (darcy_nx (darcy d)) (darcy_ny (darcy d))
                      (darcy_nz (darcy d))) tt) as [[] H]; [|exact H].
  apply Forall_forall. intros [[x y] z] Hin.
  apply interior_cells3 in Hin. exact (Hcells _ _ _ Hin).
Qed.

(** C9: both comparisons are strict.  A diffusion number equal to [0.5]
    never gives the diffusion exit, and when in addition to a passing
    diffusion test every interior cell has Courant number equal to [1.0],
    the call returns. *)
Theorem stability_bounds_are_strict (d : DEM) :
  (SFeqb (diffusion_number d) F0_5 = true ->
   forall st, fst (checkDarcyStability d) <> Exited st DiffusionUnstable) /\
  (Fgt (diffusion_number d) F0_5 = false ->
   (forall x y z, interior d x y z ->
      exists v, v_at d x y z = Some v /\
                SFeqb (courant_number d v) F1_0 = true) ->
   fst (checkDarcyStability d) = Returned tt) /\
  (SFeqb (diffusion_number d) F0_5 = true ->
   (forall x y z, interior d x y z ->
      exists v, v_at d x y z = Some v /\
                SFeqb (courant_number d v) F1_0 = true) ->
   fst (checkDarcyStability d) = Returned tt).
Proof.
  assert (Hcells :
    (forall x y z, interior d x y z ->
       exists v, v_at d x y z = Some v /\
                 SFeqb (courant_number d v) F1_0 = true) ->
    forall x y z, interior d x y z ->
       exists v, v_at d x y z = Some v /\
                 Fgt (courant_number d v) F1_0 = false).
  { intros H x y z Hi. destruct (H x y z Hi) as (v & Ev & Eq).
    exists v. split; [assumption | now apply Fgt_false_of_eqb]. }
  split; [|split].
  - intros Heq st E. apply (diffusion_check_iff_st d) in E as [E _].
    rewrite (Fgt_false_of_eqb _ _ Heq) in E. discriminate.
  - intros Hdiff H. apply checkDarcyStability_returns; auto.
  - intros Heq H. apply checkDarcyStability_returns; auto.
    now apply Fgt_false_of_eqb.
Qed.

(** ** Signs of products, quotients and sums *)

Lemma binary_round_aux_sign s m e l :
  sign_or_nan s (binary_round_aux prec emax s m e l) = true.
Proof.
  unfold binary_round_aux.
  destruct (shr_fexp prec emax m e l) as [mrs' e'].
  destruct (shr_fexp prec emax _ e' loc_Exact) as [mrs'' e''].
  destruct (shr_m mrs''); simpl; try apply eqb_reflx; [|reflexivity].
  destruct (e'' <=? emax - prec); simpl; apply eqb_reflx.
Qed.

Lemma Fmul_sign sa sb a b :
  sign_or_nan sa a = true -> sign_or_nan sb b = true ->
  sign_or_nan (xorb sa sb) (Fmul a b) = true.
Proof.
  destruct a as [s1|s1| |s1 m1 e1], b as [s2|s2| |s2 m2 e2]; simpl;
    intros Ha Hb; try reflexivity;
    apply eqb_prop in Ha; try apply eqb_prop in Hb; subst;
    try apply eqb_reflx.
  apply binary_round_aux_sign.
Qed.

Lemma Fdiv_sign sa sb a b :
  sign_or_nan sa a = true -> sign_or_nan sb b = true ->
  sign_or_nan (xorb sa sb) (Fdiv a b) = true.
Proof.
  destruct a as [s1|s1| |s1 m1 e1], b as [s2|s2| |s2 m2 e2]; simpl;
    intros Ha Hb; try reflexivity;
    apply eqb_prop in Ha; try apply eqb_prop in Hb; subst;
    try apply eqb_reflx.
  destruct (SFdiv_core_binary prec emax (Z.pos m1) e1 (Z.pos m2) e2)
    as [[mz ez] lz].
  apply binary_round_aux_sign.
Qed.

Lemma Float_of_Z_sign n : 1 <= n -> sign_or_nan false (Float_of_Z n) = true.
Proof.
  intros Hn. destruct n as [|p|p]; try lia.
  unfold Float_of_Z, binary_normalize, binary_round.
  destruct (shl_align p 0 _) as [mz ez]. apply binary_round_aux_sign.
Qed.

Lemma positive_sign a : Fgt a F0 = true -> sign_or_nan false a = true.
Proof.
  unfold Fgt, SFltb, F0.
  destruct a as [s|[]| |[] m e]; simpl; intros H;
    try discriminate; reflexivity.
Qed.

Lemma SFopp_sign s a :
  sign_or_nan s a = true -> sign_or_nan (negb s) (SFopp a) = true.
Proof.
  destruct a as [s'|s'| |s' m e]; simpl; intros H; try reflexivity;
    apply eqb_prop in H; subst; apply eqb_reflx.
Qed.

Lemma Fmul_zero_l s b : zero_or_nan (Fmul (S754_zero s) b) = true.
Proof. now destruct b. Qed.

Lemma Fdiv_zero_l a b : zero_or_nan a = true -> zero_or_nan (Fdiv a b) = true.
Proof. destruct a, b; simpl; intros H; try discriminate; reflexivity. Qed.

Lemma Fadd_neg_zero a b :
  sign_or_nan true a = true -> zero_or_nan b = true ->
  nonpos_or_nan (Fadd a b) = true.
Proof.
  destruct a as [[]|[]| |[] m e], b as [[]|[]| |[] m' e']; simpl;
    intros Ha Hb; try discriminate; reflexivity.
Qed.

Lemma Fadd_nonpos_zero a b :
  nonpos_or_nan a = true -> zero_or_nan b = true ->
  nonpos_or_nan (Fadd a b) = true.
Proof.
  destruct a as [[]|[]| |[] m e], b as [[]|[]| |[] m' e']; simpl;
    intros Ha Hb; try discriminate; reflexivity.
Qed.

Lemma Fgt_nonpos_one a : nonpos_or_nan a = true -> Fgt a F1_0 = false.
Proof.
  unfold Fgt, SFltb, F1_0.
  destruct a as [s|[]| |[] m e]; simpl; intros H;
    try discriminate; reflexivity.
Qed.

(** The Courant number of a velocity [(-V, 0, 0)] with [V > 0], for a
    positive time step and positive cell sizes, does not exceed one,
    however large [V] is. *)
Lemma courant_backward_flow d V :
  Fgt V F0 = true ->
  Fgt (time_dt (time d)) F0 = true ->
  Fgt (at0 (grid_L (grid d))) F0 = true ->
  1 <= at0 (grid_num (grid d)) ->
  Fgt (courant_number d (mkFloat3 (SFopp V) F0 F0)) F1_0 = false.
Proof.
  intros HV Hdt HL Hn. apply Fgt_nonpos_one. unfold courant_number.
  cbn [f3_x f3_y f3_z].
  apply Fadd_nonpos_zero; [apply Fadd_neg_zero|].
  - apply (Fdiv_sign true false).
    + apply (Fmul_sign true false).
      * apply (SFopp_sign false). now apply positive_sign.
      * now apply positive_sign.
    + unfold cell_dx. apply (Fdiv_sign false false).
      * now apply positive_sign.
      * now apply Float_of_Z_sign.
  - apply Fdiv_zero_l, Fmul_zero_l.
  - apply Fdiv_zero_l, Fmul_zero_l.
Qed.

(** C10: the Courant test adds the signed components.  Whenever the signed
    sum of every interior cell is at most [1.0] the call returns (given a
    passing diffusion test), whatever the speed; in particular a uniform
    velocity [(-V, 0, 0)] with [V > 0] arbitrarily large, on a grid with
    positive time step, length and cell count along [x], never gives the
    advection exit. *)
Theorem advection_check_is_signed (d : DEM) :
  (Fgt (diffusion_number d) F0_5 = false ->
   (forall x y z, interior d x y z ->
      exists v, v_at d x y z = Some v /\
                SFleb (courant_number d v) F1_0 = true) ->
   fst (checkDarcyStability d) = Returned tt) /\
  (forall V,
     Fgt V F0 = true ->
     Fgt (time_dt (time d)) F0 = true ->
     Fgt (at0 (grid_L (grid d))) F0 = true ->
     1 <= at0 (grid_num (grid d)) ->
     (forall x y z, interior d x y z ->
        v_at d x y z = Some (mkFloat3 (SFopp V) F0 F0)) ->
     (forall st x y z v,
        fst (checkDarcyStability d) <> Exited st (AdvectionUnstable x y z v))
     /\ (Fgt (diffusion_number d) F0_5 = false ->
         fst (checkDarcyStability d) = Returned tt)).
Proof.
  split.
  - intros Hdiff H. apply checkDarcyStability_returns; [assumption|].
    intros x y z Hi. destruct (H x y z Hi) as (v & Ev & Hle).
    exists v. split; [assumption | now apply Fgt_false_of_leb].
  - intros V HV Hdt HL Hn Hv.
    assert (Hret : Fgt (diffusion_number d) F0_5 = false ->
                   fst (checkDarcyStability d) = Returned tt).
    { intros Hdiff. apply checkDarcyStability_returns; [assumption|].
      intros x y z Hi. eexists. split; [now apply Hv|].
      now apply courant_backward_flow. }
    split; [|exact Hret].
    intros st x y z v E.
    destruct (Fgt (diffusion_number d) F0_5) eqn:Hdiff.
    + rewrite checkDarcyStability_scan in E. simpl in E.
      rewrite Hdiff in E. discriminate.
    + rewrite Hret in E by reflexivity. discriminate.
Qed.

(** ** The residual functions *)

Lemma bind_run {A B} (m : M A) (k : A -> M B) d o d' :
  m d = (o, d') ->
  bind m k d = match o with
               | Returned a => k a d'
               | Exited st msg => (Exited st msg, d')
               | Undefined => (Undefined, d')
               end.
Proof. intros H. unfold bind. now rewrite H. Qed.

Lemma avgNormResDarcy_scan norm_res_sum0 d :
  avgNormResDarcy norm_res_sum0 d =
  (match scan (residual_val d) residual_bad (residual_report d) Fadd
           (residual_cells d) norm_res_sum0 with
   | Returned s => Returned (Fdiv s (residual_count d))
   | Exited st msg => Exited st msg
   | Undefined => Undefined
   end, d).
Proof.
  unfold avgNormResDarcy. rewrite bind_get.
  erewrite bind_run.
  2:{ apply (for3_scan (residual_val d) residual_bad (residual_report d) Fadd
               (fun z y x norm_res_sum =>
                  norm_res <- read (darcy_norm (darcy d)) (d_idx d x y z);;
                  if Fne norm_res norm_res
                  then exit 1 (nan_report d norm_res x y z)
                  else ret (Fadd norm_res_sum norm_res))).
      intros i j k s.
      unfold bind, read, scan_step, residual_val, norm_at. simpl.
      destruct (darcy_norm (darcy d) !! Z.to_nat (d_idx d k j i)) as [v|];
        [|reflexivity].
      unfold residual_bad, residual_report, ret, exit. simpl.
      now destruct (Fne v v). }
  fold (residual_cells d).
  now destruct (scan _ _ _ _ (residual_cells d) norm_res_sum0).
Qed.

Lemma maxNormResDarcy_scan d :
  maxNormResDarcy d =
  (scan (residual_val d) residual_bad (residual_report d) max_upd
        (residual_cells d) Fm1e9, d).
Proof.
  unfold maxNormResDarcy. rewrite bind_get.
  apply (for3_scan (residual_val d) residual_bad (residual_report d) max_upd
           (fun z y x max_norm_res =>
              norm_res <- read (darcy_norm (darcy d)) (d_idx d x y z);;
              if Fne norm_res norm_res
              then exit 1 (nan_report d norm_res x y z)
              else if Fgt norm_res max_norm_res then ret norm_res
                   else ret max_norm_res)).
  intros i j k s.
  unfold bind, read, scan_step, residual_val, norm_at. simpl.
  destruct (darcy_norm (darcy d) !! Z.to_nat (d_idx d k j i)) as [v|];
    [|reflexivity].
  unfold residual_bad, residual_report, max_upd, ret, exit. simpl.
  destruct (Fne v v); [reflexivity|]. now destruct (Fgt v s).
Qed.

Lemma elem_of_residual_cells d x y z :
  (z, y, x) ∈ residual_cells d <-> residual_cell d x y z.
Proof. unfold residual_cells, residual_cell. rewrite elem_of_cells3. lia. Qed.

(** [norm_res != norm_res] singles out NaN. *)
Lemma Fne_self v : Fne v v = is_nan v.
Proof.
  unfold Fne, SFeqb.
  destruct v as [s|[]| |[] m e]; simpl; try reflexivity;
    rewrite Z.compare_refl, Pos.compare_cont_refl; reflexivity.
Qed.

Lemma residual_bad_nan v : residual_bad v = true <-> v = S754_nan.
Proof.
  unfold residual_bad. rewrite Fne_self.
  destruct v; simpl; split; congruence.
Qed.

(** A residual scan leaves at cell [(x,y,z)] exactly when it is the first
    cell in scan order holding NaN, all cells before it being readable. *)
Lemma residual_scan_exit {S} (upd : S -> Float -> S) d s st msg :
  scan (residual_val d) residual_bad (residual_report d) upd
       (residual_cells d) s = Exited st msg
  <->
  exists x y z,
    residual_cell d x y z /\ norm_at d x y z = Some S754_nan /\
    (forall x' y' z',
       residual_cell d x' y' z' -> residual_scan_before x' y' z' x y z ->
       exists v, norm_at d x' y' z' = Some v /\ is_nan v = false) /\
    st = 1 /\ msg = nan_report d S754_nan x y z.
Proof.
  rewrite scan_exited. split.
  - intros (l1 & [[z y] x] & v & l2 & E & Hp & Ev & Eb & -> & ->).
    apply residual_bad_nan in Eb. subst v.
    exists x, y, z.
    assert (Hin : (z, y, x) ∈ residual_cells d)
      by (rewrite E; apply elem_of_app; right; left).
    pose proof (StronglySorted_cells3 (at2 (grid_num (grid d)))
                  (at1 (grid_num (grid d))) (at0 (grid_num (grid d)))) as Hs.
    fold (residual_cells d) in Hs. rewrite E in Hs.
    apply elem_of_residual_cells in Hin.
    repeat split; try assumption; try apply Hin.
    intros x' y' z' Hi Hlt.
    assert (H1 : (z', y', x') ∈ l1).
    { apply (sorted_prefix _ _ _ _ Hs). split; [|exact Hlt].
      rewrite <- E. now apply elem_of_residual_cells. }
    rewrite Forall_forall in Hp. destruct (Hp _ H1) as (v & Ev' & Eb').
    exists v. split; [exact Ev'|].
    unfold residual_bad in Eb'. now rewrite Fne_self in Eb'.
  - intros (x & y & z & Hi & Ev & Hbefore & -> & ->).
    apply elem_of_residual_cells in Hi.
    destruct (list_elem_of_split _ _ Hi) as (l1 & l2 & E).
    exists l1, (z, y, x), S754_nan, l2.
    repeat split; try assumption.
    pose proof (StronglySorted_cells3 (at2 (grid_num (grid d)))
                  (at1 (grid_num (grid d))) (at0 (grid_num (grid d)))) as Hs.
    fold (residual_cells d) in Hs. rewrite E in Hs.
    apply Forall_forall. intros [[z' y'] x'] H1.
    apply (sorted_prefix _ _ _ _ Hs) in H1 as [Hin Hlt].
    rewrite <- E in Hin. apply elem_of_residual_cells in Hin.
    destruct (Hbefore _ _ _ Hin Hlt) as (v & Ev' & Hn).
    exists v. split; [exact Ev'|].
    unfold residual_bad. now rewrite Fne_self.
Qed.

(** With all cells readable, a NaN somewhere makes a residual scan
    leave. *)
Lemma residual_scan_nan {S} (upd : S -> Float -> S) d s x y z :
  (forall x' y' z', residual_cell d x' y' z' -> is_Some (norm_at d x' y' z')) ->
  residual_cell d x y z -> norm_at d x y z = Some S754_nan ->
  exists st msg,
    scan (residual_val d) residual_bad (residual_report d) upd
         (residual_cells d) s = Exited st msg.
Proof.
  intros Hread Hi Ev.
  apply (scan_some_bad _ _ _ _ _ _ (z, y, x) S754_nan).
  - apply Forall_forall. intros [[z' y'] x'] Hin.
    apply elem_of_residual_cells in Hin. now apply Hread.
  - now apply elem_of_residual_cells.
  - exact Ev.
  - reflexivity.
Qed.

(** A residual scan that returns has met no NaN. *)
Lemma residual_scan_returned {S} (upd : S -> Float -> S) d s s' :
  scan (residual_val d) residual_bad (residual_report d) upd
       (residual_cells d) s = Returned s' ->
  forall x y z, residual_cell d x y z ->
    exists v, norm_at d x y z = Some v /\ is_nan v = false.
Proof.
  intros H x y z Hi. apply scan_returned in H. rewrite Forall_forall in H.
  apply elem_of_residual_cells in Hi.
  destruct (H _ Hi) as (v & Ev & Eb). exists v. split; [exact Ev|].
  unfold residual_bad in Eb. now rewrite Fne_self in Eb.
Qed.

(** The running maximum is never NaN. *)
Lemma max_scan_not_nan d l m m' :
  is_nan m = false ->
  scan (residual_val d) residual_bad (residual_report d) max_upd l m
    = Returned m' ->
  is_nan m' = false.
Proof.
  revert m. induction l as [|c l IH]; intros m Hm; simpl.
  - now intros [= <-].
  - unfold scan_step. destruct (residual_val d c) as [v|]; [|discriminate].
    unfold residual_bad. rewrite Fne_self.
    destruct (is_nan v) eqn:Hv; [discriminate|].
    apply IH. unfold max_upd. now destruct (Fgt v m).
Qed.

(** C5 (as stated): refuted for the mean.  With residuals [+inf] and
    [-inf] in two cells and zero elsewhere no cell holds NaN, yet the sum
    is NaN and [avgNormResDarcy], here even started from a zero sum,
    returns NaN. *)
Lemma avgNormResDarcy_returns_nan :
  (forall x y z, residual_cell opposite_infinities_DEM x y z ->
     exists v, norm_at opposite_infinities_DEM x y z = Some v /\
               is_nan v = false) /\
  fst (avgNormResDarcy F0 opposite_infinities_DEM) = Returned S754_nan.
Proof.
  assert (H : fst (avgNormResDarcy F0 opposite_infinities_DEM)
              = Returned S754_nan) by (vm_compute; reflexivity).
  split; [|exact H].
  assert (E : scan (residual_val opposite_infinities_DEM) residual_bad
                (residual_report opposite_infinities_DEM) Fadd
                (residual_cells opposite_infinities_DEM) F0
              = Returned S754_nan) by (vm_compute; reflexivity).
  exact (residual_scan_returned _ _ _ _ E).
Qed.

(** C5 (amended): when some interior cell holds NaN and the interior cells
    can be read, both residual functions end the process at the first NaN
    cell in scan order, reporting its coordinates, [time.current] and
    [int(time.current/time.dt)]; whenever either function returns, no
    interior cell holds NaN, and [maxNormResDarcy] never returns NaN. *)
Theorem nan_residual_is_fatal (d : DEM) :
  (forall x y z,
     residual_cell d x y z -> norm_at d x y z = Some S754_nan ->
     (forall x' y' z',
        residual_cell d x' y' z' -> is_Some (norm_at d x' y' z')) ->
     exists x0 y0 z0,
       residual_cell d x0 y0 z0 /\ norm_at d x0 y0 z0 = Some S754_nan /\
       (forall x' y' z',
          residual_cell d x' y' z' ->
          residual_scan_before x' y' z' x0 y0 z0 ->
          exists v, norm_at d x' y' z' = Some v /\ is_nan v = false) /\
       (forall norm_res_sum0,
          fst (avgNormResDarcy norm_res_sum0 d)
          = Exited 1 (ResidualNaN S754_nan x0 y0 z0 (time_current (time d))
                        (int_of_Float (Fdiv (time_current (time d))
                                            (time_dt (time d)))))) /\
       fst (maxNormResDarcy d)
       = Exited 1 (ResidualNaN S754_nan x0 y0 z0 (time_current (time d))
                     (int_of_Float (Fdiv (time_current (time d))
                                         (time_dt (time d)))))) /\
  (forall norm_res_sum0 r,
     fst (avgNormResDarcy norm_res_sum0 d) = Returned r ->
     forall x y z, residual_cell d x y z ->
       exists v, norm_at d x y z = Some v /\ is_nan v = false) /\
  (forall r,
     fst (maxNormResDarcy d) = Returned r ->
     is_nan r = false /\
     forall x y z, residual_cell d x y z ->
       exists v, norm_at d x y z = Some v /\ is_nan v = false).
Proof.
  split; [|split].
  - intros x y z Hi Ev Hread.
    destruct (residual_scan_nan max_upd d Fm1e9 x y z Hread Hi Ev)
      as (st & msg & Hmax).
    pose proof Hmax as Hcell.
    apply residual_scan_exit in Hcell
      as (x0 & y0 & z0 & Hi0 & Ev0 & Hbefore & -> & ->).
    exists x0, y0, z0. repeat split; try assumption; try apply Hi0.
    + intros s0. rewrite avgNormResDarcy_scan. simpl.
      assert (E : scan (residual_val d) residual_bad (residual_report d)
                    Fadd (residual_cells d) s0
                  = Exited 1 (nan_report d S754_nan x0 y0 z0)).
      { apply residual_scan_exit. exists x0, y0, z0. auto. }
      now rewrite E.
    + rewrite maxNormResDarcy_scan. exact Hmax.
  - intros s0 r H. rewrite avgNormResDarcy_scan in H. simpl in H.
    destruct (scan _ _ _ _ (residual_cells d) s0) as [s| |] eqn:E;
      try discriminate.
    exact (residual_scan_returned _ _ _ _ E).
  - intros r H. rewrite maxNormResDarcy_scan in H. simpl in H. split.
    + now apply (max_scan_not_nan d (residual_cells d) Fm1e9 r).
    + exact (residual_scan_returned _ _ _ _ H).
Qed.

Lemma nan_residual_is_fatal_witness :
  exists x0 y0 z0,
    norm_at nan_DEM x0 y0 z0 = Some S754_nan /\
    fst (maxNormResDarcy nan_DEM)
    = Exited 1 (ResidualNaN S754_nan x0 y0 z0 (Float_of_Z 7) (Some 3)).
Proof.
  destruct (proj1 (nan_residual_is_fatal nan_DEM) 0 1 1)
    as (x0 & y0 & z0 & _ & Ev & _ & _ & Hmax).
  - unfold residual_cell. cbn. lia.
  - vm_compute. reflexivity.
  - intros x y z (Hx & Hy & Hz). cbn in Hx, Hy, Hz.
    assert (Cx : x = 0 \/ x = 1) by lia.
    assert (Cy : y = 0 \/ y = 1) by lia.
    assert (Cz : z = 0 \/ z = 1) by lia.
    destruct Cx as [-> | ->], Cy as [-> | ->], Cz as [-> | ->];
      unfold is_Some; eexists; vm_compute; reflexivity.
  - exists x0, y0, z0. split; [exact Ev | exact Hmax].
Defined.

(** ** The maximum of a field with a single peak *)

Lemma max_scan_zeros d l m :
  (forall c, c ∈ l ->
     exists v, residual_val d c = Some v /\ is_zero v = true) ->
  m = Fm1e9 \/ is_zero m = true ->
  exists m',
    scan (residual_val d) residual_bad (residual_report d) max_upd l m
      = Returned m' /\ (m' = Fm1e9 \/ is_zero m' = true).
Proof.
  revert m. induction l as [|c l IH]; intros m Hl Hm; simpl.
  - now exists m.
  - destruct (Hl c) as (v & Ev & Hv); [left|].
    unfold scan_step. rewrite Ev.
    destruct v as [s| | |]; try discriminate. cbn [residual_bad].
    replace (residual_bad (S754_zero s)) with false by now destruct s.
    apply IH; [intros c' Hc'; apply Hl; now right|].
    unfold max_upd. destruct (Fgt (S754_zero s) m); auto.
Qed.

Lemma max_scan_keep d l M :
  Fgt M F0 = true ->
  (forall c, c ∈ l ->
     exists v, residual_val d c = Some v /\ is_zero v = true) ->
  scan (residual_val d) residual_bad (residual_report d) max_upd l M
    = Returned M.
Proof.
  intros HM. induction l as [|c l IH]; intros Hl; simpl; [reflexivity|].
  destruct (Hl c) as (v & Ev & Hv); [left|].
  unfold scan_step. rewrite Ev.
  destruct v as [s| | |]; try discriminate.
  replace (residual_bad (S754_zero s)) with false by now destruct s.
  replace (max_upd M (S754_zero s)) with M.
  - apply IH. intros c' Hc'. apply Hl. now right.
  - unfold max_upd, Fgt, SFltb, F0 in *.
    destruct M as [s'|[]| |[] m e]; simpl in *; try discriminate; reflexivity.
Qed.

Lemma max_upd_peak m M :
  Fgt M F0 = true -> m = Fm1e9 \/ is_zero m = true ->
  residual_bad M = false /\ max_upd m M = M.
Proof.
  intros HM Hm. unfold residual_bad. rewrite Fne_self.
  unfold max_upd, Fgt, SFltb, F0 in *.
  destruct Hm as [-> | Hm].
  - destruct M as [s'|[]| |[] mm e]; simpl in *; try discriminate; auto.
  - destruct m as [s| | |]; try discriminate.
    destruct M as [s'|[]| |[] mm e]; simpl in *; try discriminate; auto.
Qed.

(** C6: on every grid, when one interior cell holds [M > 0] and every
    other interior cell holds zero, [maxNormResDarcy] returns [M]; the
    running maximum starts from the sentinel [-1.0e9], which a single
    residual replaces exactly when it lies above it. *)
Theorem maxNormResDarcy_single_peak (d : DEM) :
  (forall x0 y0 z0 M,
     residual_cell d x0 y0 z0 ->
     Fgt M F0 = true ->
     norm_at d x0 y0 z0 = Some M ->
     (forall x y z,
        residual_cell d x y z -> (x, y, z) <> (x0, y0, z0) ->
        exists v, norm_at d x y z = Some v /\ is_zero v = true) ->
     fst (maxNormResDarcy d) = Returned M) /\
  (forall r,
     grid_num (grid d) = mkND3 1 1 1 ->
     norm_at d 0 0 0 = Some r -> is_nan r = false ->
     fst (maxNormResDarcy d)
     = Returned (if Fgt r Fm1e9 then r else Fm1e9)).
Proof.
  split.
  - intros x0 y0 z0 M Hi HM Ev Hzero.
    rewrite maxNormResDarcy_scan. simpl.
    apply elem_of_residual_cells in Hi.
    destruct (list_elem_of_split _ _ Hi) as (l1 & l2 & E).
    pose proof (StronglySorted_cells3 (at2 (grid_num (grid d)))
                  (at1 (grid_num (grid d))) (at0 (grid_num (grid d)))) as Hs.
    fold (residual_cells d) in Hs. rewrite E in Hs.
    apply StronglySorted_app in Hs as (H12 & _ & Hs2).
    apply StronglySorted_cons in Hs2 as [Hc _]. rewrite Forall_forall in Hc.
    assert (Z1 : forall c, c ∈ l1 ->
              exists v, residual_val d c = Some v /\ is_zero v = true).
    { intros [[z y] x] Hin. apply Hzero.
      - apply elem_of_residual_cells. rewrite E. apply elem_of_app. now left.
      - intros [= -> -> ->]. apply (lex3_irrefl (z0, y0, x0)).
        apply H12; [assumption | left]. }
    assert (Z2 : forall c, c ∈ l2 ->
              exists v, residual_val d c = Some v /\ is_zero v = true).
    { intros [[z y] x] Hin. apply Hzero.
      - apply elem_of_residual_cells. rewrite E. apply elem_of_app.
        right. now right.
      - intros [= -> -> ->]. apply (lex3_irrefl (z0, y0, x0)). now apply Hc. }
    rewrite E, scan_app.
    destruct (max_scan_zeros d l1 Fm1e9 Z1 (or_introl eq_refl))
      as (m & -> & Hm).
    simpl. unfold scan_step at 1.
    change (residual_val d (z0, y0, x0)) with (norm_at d x0 y0 z0).
    rewrite Ev. destruct (max_upd_peak m M HM Hm) as [-> ->].
    now apply max_scan_keep.
  - intros r Hnum Ev Hr. rewrite maxNormResDarcy_scan. simpl.
    unfold residual_cells. rewrite Hnum. cbn [at0 at1 at2].
    change (cells3 1 1 1) with [(0, 0, 0)]. simpl. unfold scan_step.
    change (residual_val d (0, 0, 0)) with (norm_at d 0 0 0).
    rewrite Ev. unfold residual_bad. rewrite Fne_self, Hr. reflexivity.
Qed.

Lemma maxNormResDarcy_single_peak_witness :
  fst (maxNormResDarcy one_peak_DEM) = Returned (Float_of_Z 3).
Proof.
  apply (proj1 (maxNormResDarcy_single_peak one_peak_DEM) 1 0 1).
  - unfold residual_cell. cbn. lia.
  - vm_compute. reflexivity.
  - vm_compute. reflexivity.
  - intros x y z (Hx & Hy & Hz) Hne. cbn in Hx, Hy, Hz.
    assert (Cx : x = 0 \/ x = 1) by lia.
    assert (Cy : y = 0 \/ y = 1) by lia.
    assert (Cz : z = 0 \/ z = 1) by lia.
    destruct Cx as [-> | ->], Cy as [-> | ->], Cz as [-> | ->];
      try (exfalso; apply Hne; reflexivity);
      exists F0; split; vm_compute; reflexivity.
Defined.

Lemma stability_bounds_are_strict_witness :
  fst (checkDarcyStability on_bounds_DEM) = Returned tt.
Proof.
  apply (stability_bounds_are_strict on_bounds_DEM).
  - vm_compute. reflexivity.
  - intros x y z (Hx & Hy & Hz). cbn in Hx, Hy, Hz.
    assert (x = 0) as -> by lia. assert (y = 0) as -> by lia.
    assert (z = 0) as -> by lia.
    exists (mkFloat3 F1_0 F0 F0). split; vm_compute; reflexivity.
Defined.

Lemma advection_check_is_signed_witness :
  fst (checkDarcyStability backward_DEM) = Returned tt.
Proof.
  apply (proj2 (advection_check_is_signed backward_DEM)
           (Float_of_Z (10 ^ 30))).
  - vm_compute. reflexivity.
  - vm_compute. reflexivity.
  - vm_compute. reflexivity.
  - cbn. lia.
  - intros x y z (Hx & Hy & Hz). cbn in Hx, Hy, Hz.
    assert (Cx : x = 0 \/ x = 1) by lia.
    assert (Cy : y = 0 \/ y = 1) by lia.
    assert (Cz : z = 0 \/ z = 1) by lia.
    destruct Cx as [-> | ->], Cy as [-> | ->], Cz as [-> | ->];
      vm_compute; reflexivity.
  - vm_compute. reflexivity.
Defined.

(** ** The mean residual *)

(** What [avgNormResDarcy] returns: the residuals added in scan order to
    the value found in [norm_res_sum], divided by the cell count. *)
Lemma avgNormResDarcy_value norm_res_sum0 d r :
  fst (avgNormResDarcy norm_res_sum0 d) = Returned r ->
  exists vs,
    Forall2 (fun c v => residual_val d c = Some v) (residual_cells d) vs /\
    r = Fdiv (foldl Fadd norm_res_sum0 vs) (residual_count d).
Proof.
  rewrite avgNormResDarcy_scan. simpl.
  destruct (scan _ _ _ _ (residual_cells d) norm_res_sum0) as [s| |] eqn:E;
    try discriminate.
  intros [= <-]. apply scan_fold in E as (vs & Hv & _ & ->).
  now exists vs.
Qed.

(** C2: the code does not give the mean of the field.  [norm_res_sum] is
    never set before the residuals are added to it, so over a single cell
    holding zero the function returns whatever the variable held on entry:
    [1.0] when it held [1.0], NaN when it held NaN, and [0] only when it
    happened to hold [0]. *)
Theorem avgNormResDarcy_sum_not_reset :
  fst (avgNormResDarcy F1_0 one_cell_zero_DEM) = Returned F1_0 /\
  fst (avgNormResDarcy S754_nan one_cell_zero_DEM) = Returned S754_nan /\
  fst (avgNormResDarcy F0 one_cell_zero_DEM) = Returned F0 /\
  norm_at one_cell_zero_DEM 0 0 0 = Some F0 /\
  residual_cells one_cell_zero_DEM = [(0, 0, 0)].
Proof. repeat split; vm_compute; reflexivity. Qed.

(** ** Allocation *)

Lemma length_new_array {A} (holds : nat -> A) n :
  length (new_array holds n) = Z.to_nat n.
Proof. unfold new_array. now rewrite length_fmap, length_seq. Qed.

Lemma to_int_small n : 0 <= n <= INT_MAX -> to_int n = n.
Proof.
  intros H. unfold to_int, to_uint, INT_MIN, INT_MAX, UINT_MODULUS,
    UINT_WIDTH in *.
  rewrite Z.mod_small; lia.
Qed.

(** Counts whose padded product is an [unsigned int] are [int] values. *)
Lemma counts_small a b c :
  0 <= a -> 0 <= b -> 0 <= c ->
  (a + 2) * (b + 2) * (c + 2) < UINT_MODULUS ->
  a <= INT_MAX /\ b <= INT_MAX /\ c <= INT_MAX.
Proof.
  unfold UINT_MODULUS, UINT_WIDTH, INT_MAX.
  change (2 ^ 32) with 4294967296. change (2 ^ 31) with 2147483648.
  intros Ha Hb Hc H.
  assert (0 <= a * b) by nia. assert (0 <= a * c) by nia.
  assert (0 <= b * c) by nia. assert (0 <= a * b * c) by nia.
  nia.
Qed.

(** The object [initDarcyMem] leaves behind when the allocations
    succeed. *)
Lemma initDarcyMem_gives mem d :
  initDarcyMem (gives mem) d =
  (Returned tt,
   let nx := to_int (at0 (grid_num (grid d))) in
   let ny := to_int (at1 (grid_num (grid d))) in
   let nz := to_int (at2 (grid_num (grid d))) in
   let ncells := to_uint ((nx + 2) * (ny + 2) * (nz + 2)) in
   set_darcy d
     (mkDarcy nx ny nz
              (darcy_dx (darcy d)) (darcy_dy (darcy d)) (darcy_dz (darcy d))
              (new_array (fresh_p mem) ncells)
              (new_array (fresh_v mem) ncells)
              (new_array (fresh_phi mem) ncells)
              (new_array (fresh_dphi mem) ncells)
              (new_array (fresh_norm mem) ncells)
              (new_array (fresh_f_p mem) (np d)))).
Proof. reflexivity. Qed.

(** The same when the entries of [grid.num] are [int] values. *)
Lemma initDarcyMem_run mem d :
  0 <= at0 (grid_num (grid d)) <= INT_MAX ->
  0 <= at1 (grid_num (grid d)) <= INT_MAX ->
  0 <= at2 (grid_num (grid d)) <= INT_MAX ->
  initDarcyMem (gives mem) d =
  (Returned tt,
   let ncells := to_uint ((at0 (grid_num (grid d)) + 2)
                          * (at1 (grid_num (grid d)) + 2)
                          * (at2 (grid_num (grid d)) + 2)) in
   set_darcy d
     (mkDarcy (at0 (grid_num (grid d))) (at1 (grid_num (grid d)))
              (at2 (grid_num (grid d)))
              (darcy_dx (darcy d)) (darcy_dy (darcy d)) (darcy_dz (darcy d))
              (new_array (fresh_p mem) ncells)
              (new_array (fresh_v mem) ncells)
              (new_array (fresh_phi mem) ncells)
              (new_array (fresh_dphi mem) ncells)
              (new_array (fresh_norm mem) ncells)
              (new_array (fresh_f_p mem) (np d)))).
Proof.
  intros H0 H1 H2. rewrite initDarcyMem_gives. cbn zeta.
  now rewrite !to_int_small by assumption.
Qed.

(** The same for a padded count that fits. *)
Lemma initDarcyMem_run_fit mem d :
  0 <= at0 (grid_num (grid d)) -> 0 <= at1 (grid_num (grid d)) ->
  0 <= at2 (grid_num (grid d)) ->
  (at0 (grid_num (grid d)) + 2) * (at1 (grid_num (grid d)) + 2)
    * (at2 (grid_num (grid d)) + 2) < UINT_MODULUS ->
  initDarcyMem (gives mem) d =
  (Returned tt,
   let ncells := to_uint ((at0 (grid_num (grid d)) + 2)
                          * (at1 (grid_num (grid d)) + 2)
                          * (at2 (grid_num (grid d)) + 2)) in
   set_darcy d
     (mkDarcy (at0 (grid_num (grid d))) (at1 (grid_num (grid d)))
              (at2 (grid_num (grid d)))
              (darcy_dx (darcy d)) (darcy_dy (darcy d)) (darcy_dz (darcy d))
              (new_array (fresh_p mem) ncells)
              (new_array (fresh_v mem) ncells)
              (new_array (fresh_phi mem) ncells)
              (new_array (fresh_dphi mem) ncells)
              (new_array (fresh_norm mem) ncells)
              (new_array (fresh_f_p mem) (np d)))).
Proof.
  intros H0 H1 H2 Hfit.
  destruct (counts_small _ _ _ H0 H1 H2 Hfit) as (B0 & B1 & B2).
  apply initDarcyMem_run; lia.
Qed.

(** Whatever the grid, the five per-cell arrays get [darcyCells()]
    elements each, [f_p] gets [np], and the counts are the [int] values of
    the entries of [grid.num]. *)
Lemma initDarcyMem_sizes mem d :
  let d' := snd (initDarcyMem (gives mem) d) in
  darcy_nx (darcy d') = to_int (at0 (grid_num (grid d))) /\
  darcy_ny (darcy d') = to_int (at1 (grid_num (grid d))) /\
  darcy_nz (darcy d') = to_int (at2 (grid_num (grid d))) /\
  length (darcy_p (darcy d')) = Z.to_nat (darcyCells d') /\
  length (darcy_v (darcy d')) = Z.to_nat (darcyCells d') /\
  length (darcy_phi (darcy d')) = Z.to_nat (darcyCells d') /\
  length (darcy_dphi (darcy d')) = Z.to_nat (darcyCells d') /\
  length (darcy_norm (darcy d')) = Z.to_nat (darcyCells d') /\
  length (darcy_f_p (darcy d')) = Z.to_nat (np d).
Proof.
  intros d'. subst d'. rewrite initDarcyMem_gives. cbn zeta.
  cbn [snd]. unfold darcyCells.
  cbn [set_darcy darcy darcy_nx darcy_ny darcy_nz darcy_p darcy_v darcy_phi
       darcy_dphi darcy_norm darcy_f_p].
  rewrite !length_new_array. repeat split.
Qed.

(** A failing allocation ends the process, whichever of the six it
    is. *)
Lemma initDarcyMem_bad_alloc heap d :
  heap_p heap = None \/ heap_v heap = None \/ heap_phi heap = None \/
  heap_dphi heap = None \/ heap_norm heap = None \/ heap_f_p heap = None ->
  fst (initDarcyMem heap d) = Exited ABORTED BadAlloc.
Proof.
  destruct heap as [p v phi dphi norm f_p]. cbn [heap_p heap_v heap_phi
    heap_dphi heap_norm heap_f_p].
  intros H.
  destruct p as [p|]; [|reflexivity].
  destruct v as [v|]; [|reflexivity].
  destruct phi as [phi|]; [|reflexivity].
  destruct dphi as [dphi|]; [|reflexivity].
  destruct norm as [norm|]; [|reflexivity].
  destruct f_p as [f_p|]; [|reflexivity].
  exfalso. intuition discriminate.
Qed.

(** C7 (as stated, for every grid): refuted.  On the grid
    [65534 x 65534 x 1] the counts are taken from [grid.num] and all six
    allocations succeed, yet [(nx+2)*(ny+2)*(nz+2)] is [12884901888]
    while [darcyCells()] is [0]: the five per-cell arrays are allocated
    with no element at all. *)
Lemma initDarcyMem_wide_grid_allocates_nothing :
  let d' := snd (initDarcyMem (gives zero_Fresh) wide_unallocated_DEM) in
  fst (initDarcyMem (gives zero_Fresh) wide_unallocated_DEM) = Returned tt /\
  darcy_nx (darcy d') = 65534 /\ darcy_ny (darcy d') = 65534 /\
  darcy_nz (darcy d') = 1 /\
  (darcy_nx (darcy d') + 2) * (darcy_ny (darcy d') + 2)
    * (darcy_nz (darcy d') + 2) = 12884901888 /\
  darcyCells d' = 0 /\
  darcy_p (darcy d') = [] /\ darcy_v (darcy d') = [] /\
  darcy_phi (darcy d') = [] /\ darcy_dphi (darcy d') = [] /\
  darcy_norm (darcy d') = [] /\
  Z.of_nat (length (darcy_p (darcy d')))
    <> (darcy_nx (darcy d') + 2) * (darcy_ny (darcy d') + 2)
       * (darcy_nz (darcy d') + 2).
Proof.
  cbn zeta. repeat split; try (vm_compute; reflexivity).
  vm_compute. discriminate.
Qed.

(** C7 (amended): on a grid whose padded cell count
    [(nx+2)*(ny+2)*(nz+2)], with [nx], [ny], [nz] the entries of
    [grid.num], is an [unsigned int], and when the six allocations
    succeed, [initDarcyMem] returns having set the counts to the entries
    of [grid.num] and allocated exactly the five per-cell arrays [p],
    [v], [phi], [dphi], [norm] with [(nx+2)*(ny+2)*(nz+2)] elements each,
    the value [darcyCells()] returns, and [f_p] with [np] elements. *)
Theorem initDarcyMem_allocates (mem : Fresh) (d : DEM) :
  0 <= at0 (grid_num (grid d)) -> 0 <= at1 (grid_num (grid d)) ->
  0 <= at2 (grid_num (grid d)) -> 0 <= np d ->
  (at0 (grid_num (grid d)) + 2) * (at1 (grid_num (grid d)) + 2)
    * (at2 (grid_num (grid d)) + 2) < UINT_MODULUS ->
  let d' := snd (initDarcyMem (gives mem) d) in
  let ncells := (darcy_nx (darcy d') + 2) * (darcy_ny (darcy d') + 2)
                * (darcy_nz (darcy d') + 2) in
  fst (initDarcyMem (gives mem) d) = Returned tt /\
  darcy_nx (darcy d') = at0 (grid_num (grid d)) /\
  darcy_ny (darcy d') = at1 (grid_num (grid d)) /\
  darcy_nz (darcy d') = at2 (grid_num (grid d)) /\
  darcyCells d' = ncells /\
  Z.of_nat (length (darcy_p (darcy d'))) = ncells /\
  Z.of_nat (length (darcy_v (darcy d'))) = ncells /\
  Z.of_nat (length (darcy_phi (darcy d'))) = ncells /\
  Z.of_nat (length (darcy_dphi (darcy d'))) = ncells /\
  Z.of_nat (length (darcy_norm (darcy d'))) = ncells /\
  Z.of_nat (length (darcy_f_p (darcy d'))) = np d /\
  grid d' = grid d /\ np d' = np d /\
  darcy_dx (darcy d') = darcy_dx (darcy d) /\
  darcy_dy (darcy d') = darcy_dy (darcy d) /\
  darcy_dz (darcy d') = darcy_dz (darcy d).
Proof.
  intros H0 H1 H2 Hnp Hfit d'. subst d'.
  rewrite (initDarcyMem_run_fit mem d H0 H1 H2 Hfit).
  cbn zeta. cbn [fst snd]. unfold darcyCells.
  cbn [set_darcy darcy darcy_nx darcy_ny darcy_nz darcy_p darcy_v darcy_phi
       darcy_dphi darcy_norm darcy_f_p darcy_dx darcy_dy darcy_dz grid np].
  rewrite !length_new_array.
  assert (E : to_uint ((at0 (grid_num (grid d)) + 2)
                       * (at1 (grid_num (grid d)) + 2)
                       * (at2 (grid_num (grid d)) + 2))
              = (at0 (grid_num (grid d)) + 2) * (at1 (grid_num (grid d)) + 2)
                * (at2 (grid_num (grid d)) + 2))
    by (apply to_uint_small; nia).
  rewrite E.
  assert (Hn : Z.of_nat (Z.to_nat ((at0 (grid_num (grid d)) + 2)
                                   * (at1 (grid_num (grid d)) + 2)
                                   * (at2 (grid_num (grid d)) + 2)))
               = (at0 (grid_num (grid d)) + 2) * (at1 (grid_num (grid d)) + 2)
                 * (at2 (grid_num (grid d)) + 2))
    by (apply Z2Nat.id; nia).
  repeat split; try assumption; try reflexivity.
  now apply Z2Nat.id.
Qed.

Lemma initDarcyMem_allocates_witness :
  let d' := snd (initDarcyMem (gives zero_Fresh) unallocated_DEM) in
  darcyCells d' = 60 /\ Z.of_nat (length (darcy_norm (darcy d'))) = 60 /\
  Z.of_nat (length (darcy_f_p (darcy d'))) = 5.
Proof.
  intros d'.
  destruct (initDarcyMem_allocates zero_Fresh unallocated_DEM)
    as (_ & Hx & Hy & Hz & Hc & _ & _ & _ & _ & Hnorm & Hfp & _);
    try (cbn; lia); [vm_compute; reflexivity|].
  fold d' in Hx, Hy, Hz, Hc, Hnorm, Hfp.
  rewrite Hx, Hy, Hz in Hc, Hnorm. split; [exact Hc|].
  split; [exact Hnorm | exact Hfp].
Defined.

(** After [initDarcyMem] the cells the residual functions visit are the
    interior cells, when the entries of [grid.num] are [int] values. *)
Lemma initDarcyMem_cells mem d x y z :
  0 <= at0 (grid_num (grid d)) <= INT_MAX ->
  0 <= at1 (grid_num (grid d)) <= INT_MAX ->
  0 <= at2 (grid_num (grid d)) <= INT_MAX ->
  residual_cell (snd (initDarcyMem (gives mem) d)) x y z
  <-> interior (snd (initDarcyMem (gives mem) d)) x y z.
Proof.
  intros H0 H1 H2. rewrite initDarcyMem_run by assumption.
  unfold residual_cell, interior.
  cbn [snd set_darcy darcy darcy_nx darcy_ny darcy_nz grid].
  tauto.
Qed.

(** On a grid whose padded cell count fits, every interior cell of the
    arrays allocated by [initDarcyMem] can be read. *)
Lemma initDarcyMem_cells_readable mem d x y z :
  1 <= at0 (grid_num (grid d)) -> 1 <= at1 (grid_num (grid d)) ->
  1 <= at2 (grid_num (grid d)) ->
  (at0 (grid_num (grid d)) + 2) * (at1 (grid_num (grid d)) + 2)
    * (at2 (grid_num (grid d)) + 2) < UINT_MODULUS ->
  interior (snd (initDarcyMem (gives mem) d)) x y z ->
  is_Some (norm_at (snd (initDarcyMem (gives mem) d)) x y z) /\
  is_Some (v_at (snd (initDarcyMem (gives mem) d)) x y z).
Proof.
  intros H0 H1 H2 Hfit.
  rewrite initDarcyMem_run_fit by (assumption || lia). cbn [snd].
  set (d' := set_darcy d _). intros Hi.
  assert (P : padded d' x y z).
  { unfold interior in Hi. unfold padded. lia. }
  destruct (d_idx_exact d' H0 H1 H2 Hfit x y z P) as [_ B].
  assert (L : (Z.to_nat (d_idx d' x y z) < Z.to_nat (darcyCells d'))%nat)
    by (apply Z2Nat.inj_lt; lia).
  unfold norm_at, v_at. split; apply lookup_lt_is_Some;
    cbn [d' set_darcy darcy darcy_norm darcy_v];
    rewrite length_new_array; exact L.
Qed.

(** ** Frame *)

(** C8: whenever [avgNormResDarcy] or [maxNormResDarcy] returns, the
    [DEM] object is as it was before the call; in particular the arrays
    [p], [v], [phi], [dphi], [norm] and [f_p] are unchanged. *)
Theorem residual_functions_read_only (d : DEM) :
  (forall norm_res_sum0 r d',
     avgNormResDarcy norm_res_sum0 d = (Returned r, d') ->
     d' = d /\ same_fields d d') /\
  (forall r d',
     maxNormResDarcy d = (Returned r, d') ->
     d' = d /\ same_fields d d').
Proof.
  assert (Hsame : forall d' : DEM, d' = d -> d' = d /\ same_fields d d').
  { intros d' ->. split; [reflexivity|]. repeat split. }
  split.
  - intros s0 r d' H. rewrite avgNormResDarcy_scan in H.
    apply Hsame. now injection H.
  - intros r d' H. rewrite maxNormResDarcy_scan in H.
    apply Hsame. now injection H.
Qed.

Lemma residual_functions_read_only_witness :
  snd (maxNormResDarcy one_peak_DEM) = one_peak_DEM /\
  same_fields one_peak_DEM (snd (maxNormResDarcy one_peak_DEM)).
Proof.
  apply (proj2 (residual_functions_read_only one_peak_DEM) (Float_of_Z 3)).
  vm_compute. reflexivity.
Defined.

(** * Further properties of the code *)

(** ** Layout of the two grids *)

(** Comparing two numbers digit by digit in base [w]. *)
Lemma radix_lt w a b a' b' :
  0 <= a < w -> 0 <= a' < w ->
  (a + w * b < a' + w * b' <-> b < b' \/ (b = b' /\ a < a')).
Proof. intros Ha Ha'. split; intros H; nia. Qed.

Section VelocityIndex.

Variable d : DEM.
Hypothesis Hnx : 0 <= darcy_nx (darcy d).
Hypothesis Hny : 0 <= darcy_ny (darcy d).
Hypothesis Hnz : 0 <= darcy_nz (darcy d).
Hypothesis Hfit :
  (darcy_nx (darcy d) + 3) * (darcy_ny (darcy d) + 3)
    * (darcy_nz (darcy d) + 3) < UINT_MODULUS.

Lemma darcyCellsVelocity_exact :
  darcyCellsVelocity d = (darcy_nx (darcy d) + 3) * (darcy_ny (darcy d) + 3)
                         * (darcy_nz (darcy d) + 3).
Proof. unfold darcyCellsVelocity. apply to_uint_small. nia. Qed.

Lemma d_vidx_exact x y z :
  padded_v d x y z ->
  d_vidx d x y z = (x + 1) + (darcy_nx (darcy d) + 3) * (y + 1)
                   + (darcy_nx (darcy d) + 3) * (darcy_ny (darcy d) + 3)
                     * (z + 1)
  /\ 0 <= d_vidx d x y z < darcyCellsVelocity d.
Proof.
  intros (Hx & Hy & Hz).
  pose proof (offset_bound (darcy_nx (darcy d) + 3) (darcy_ny (darcy d) + 3)
                (darcy_nz (darcy d) + 3) (x + 1) (y + 1) (z + 1)
                ltac:(lia) ltac:(lia) ltac:(lia)) as B.
  rewrite darcyCellsVelocity_exact. unfold d_vidx.
  rewrite to_uint_small by lia. split; [reflexivity | lia].
Qed.

(** The scalar count fits as soon as the velocity count does. *)
Lemma scalar_count_fits :
  (darcy_nx (darcy d) + 2) * (darcy_ny (darcy d) + 2)
    * (darcy_nz (darcy d) + 2) < UINT_MODULUS.
Proof.
  assert ((darcy_nx (darcy d) + 2) * (darcy_ny (darcy d) + 2)
          <= (darcy_nx (darcy d) + 3) * (darcy_ny (darcy d) + 3)) by nia.
  assert (0 <= (darcy_nx (darcy d) + 2) * (darcy_ny (darcy d) + 2)) by nia.
  nia.
Qed.

End VelocityIndex.

(** X1: on a grid with non-negative cell counts whose velocity-node count
    [(nx+3)*(ny+3)*(nz+3)] is an [unsigned int], [d_vidx] is injective
    over the coordinates [-1 .. n+1] of each axis and its offsets there
    are exactly [0 .. darcyCellsVelocity() - 1]. *)
Theorem d_vidx_bijective_when_count_fits (d : DEM) :
  0 <= darcy_nx (darcy d) -> 0 <= darcy_ny (darcy d) ->
  0 <= darcy_nz (darcy d) ->
  (darcy_nx (darcy d) + 3) * (darcy_ny (darcy d) + 3)
    * (darcy_nz (darcy d) + 3) < UINT_MODULUS ->
  (forall x y z x' y' z',
     padded_v d x y z -> padded_v d x' y' z' ->
     d_vidx d x y z = d_vidx d x' y' z' -> x = x' /\ y = y' /\ z = z') /\
  (forall k,
     (exists x y z, padded_v d x y z /\ d_vidx d x y z = k)
     <-> 0 <= k < darcyCellsVelocity d) /\
  darcyCellsVelocity d = (darcy_nx (darcy d) + 3) * (darcy_ny (darcy d) + 3)
                         * (darcy_nz (darcy d) + 3).
Proof.
  intros Hnx Hny Hnz Hfit. split; [|split].
  - intros x y z x' y' z' P P' E.
    destruct (d_vidx_exact d Hnx Hny Hnz Hfit x y z P) as [E1 _].
    destruct (d_vidx_exact d Hnx Hny Hnz Hfit x' y' z' P') as [E2 _].
    rewrite E1, E2 in E. clear E1 E2.
    destruct P as (Hx & Hy & Hz), P' as (Hx' & Hy' & Hz').
    destruct (radix_inj (darcy_nx (darcy d) + 3) (x + 1)
                ((y + 1) + (darcy_ny (darcy d) + 3) * (z + 1))
                (x' + 1) ((y' + 1) + (darcy_ny (darcy d) + 3) * (z' + 1)))
      as [Ex E']; [lia | lia | lia | ].
    destruct (radix_inj (darcy_ny (darcy d) + 3) (y + 1) (z + 1)
                (y' + 1) (z' + 1)) as [Ey Ez]; [lia | lia | lia | ].
    lia.
  - intros k. split.
    + intros (x & y & z & P & E). subst k. now apply d_vidx_exact.
    + intros Hk. rewrite darcyCellsVelocity_exact in Hk by assumption.
      destruct (offset_digits (darcy_nx (darcy d) + 3)
                  (darcy_ny (darcy d) + 3) (darcy_nz (darcy d) + 3) k
                  ltac:(lia) ltac:(lia) Hk) as (Ba & Bb & Bc & Ek).
      set (a := k mod (darcy_nx (darcy d) + 3)) in *.
      set (b := (k / (darcy_nx (darcy d) + 3))
                  mod (darcy_ny (darcy d) + 3)) in *.
      set (c := k / (darcy_nx (darcy d) + 3) / (darcy_ny (darcy d) + 3))
        in *.
      assert (P : padded_v d (a - 1) (b - 1) (c - 1))
        by (unfold padded_v; lia).
      exists (a - 1), (b - 1), (c - 1). split; [exact P|].
      destruct (d_vidx_exact d Hnx Hny Hnz Hfit _ _ _ P) as [E _].
      rewrite E, Ek. ring.
  - now apply darcyCellsVelocity_exact.
Qed.

Lemma d_vidx_bijective_when_count_fits_witness :
  darcyCellsVelocity (blank_DEM 2 3 1) = 120.
Proof.
  apply (d_vidx_bijective_when_count_fits (blank_DEM 2 3 1));
    vm_compute; congruence.
Defined.

(** X2: the scalar arrays are laid out with [x] running fastest.  On a
    grid whose padded count fits, the offset of one padded coordinate is
    below that of another exactly when it comes first in the order that
    compares [z], then [y], then [x]. *)
Theorem d_idx_row_major (d : DEM) :
  1 <= darcy_nx (darcy d) -> 1 <= darcy_ny (darcy d) ->
  1 <= darcy_nz (darcy d) ->
  (darcy_nx (darcy d) + 2) * (darcy_ny (darcy d) + 2)
    * (darcy_nz (darcy d) + 2) < UINT_MODULUS ->
  forall x y z x' y' z',
    padded d x y z -> padded d x' y' z' ->
    (d_idx d x y z < d_idx d x' y' z' <-> lex3 (z, y, x) (z', y', x')).
Proof.
  intros Hnx Hny Hnz Hfit x y z x' y' z' P P'.
  destruct (d_idx_exact d Hnx Hny Hnz Hfit x y z P) as [-> _].
  destruct (d_idx_exact d Hnx Hny Hnz Hfit x' y' z' P') as [-> _].
  destruct P as (Hx & Hy & Hz), P' as (Hx' & Hy' & Hz').
  unfold lex3. cbn [fst snd].
  replace (x + 1 + (darcy_nx (darcy d) + 2) * (y + 1)
           + (darcy_nx (darcy d) + 2) * (darcy_ny (darcy d) + 2) * (z + 1))
    with ((x + 1) + (darcy_nx (darcy d) + 2)
                    * ((y + 1) + (darcy_ny (darcy d) + 2) * (z + 1)))
    by ring.
  replace (x' + 1 + (darcy_nx (darcy d) + 2) * (y' + 1)
           + (darcy_nx (darcy d) + 2) * (darcy_ny (darcy d) + 2) * (z' + 1))
    with ((x' + 1) + (darcy_nx (darcy d) + 2)
                     * ((y' + 1) + (darcy_ny (darcy d) + 2) * (z' + 1)))
    by ring.
  rewrite radix_lt by lia.
  rewrite (radix_lt (darcy_ny (darcy d) + 2)) by lia.
  split.
  - intros [[H | [H1 H2]] | [H1 H2]]; [lia | lia |].
    apply radix_inj in H1; lia.
  - intros [H | [H1 [H | [H2 H3]]]]; [lia | lia |].
    right. split; [congruence | lia].
Qed.

Lemma d_idx_row_major_witness :
  d_idx (blank_DEM 2 3 1) 2 3 (-1) < d_idx (blank_DEM 2 3 1) (-1) (-1) 0.
Proof.
  apply (d_idx_row_major (blank_DEM 2 3 1));
    try (vm_compute; congruence);
    try (unfold padded; cbn; lia).
  unfold lex3. cbn. lia.
Defined.

(** X3: the two index mappings are not interchangeable.  On a grid whose
    velocity-node count fits, [d_idx] and [d_vidx] give the same offset
    for a padded coordinate only along the line [y = -1], [z = -1];
    everywhere else [d_vidx] is strictly larger. *)
Theorem d_idx_d_vidx_differ (d : DEM) :
  0 <= darcy_nx (darcy d) -> 0 <= darcy_ny (darcy d) ->
  0 <= darcy_nz (darcy d) ->
  (darcy_nx (darcy d) + 3) * (darcy_ny (darcy d) + 3)
    * (darcy_nz (darcy d) + 3) < UINT_MODULUS ->
  forall x y z,
    padded d x y z ->
    d_idx d x y z <= d_vidx d x y z /\
    (d_idx d x y z = d_vidx d x y z <-> y = -1 /\ z = -1).
Proof.
  intros Hnx Hny Hnz Hfit x y z P.
  assert (Pv : padded_v d x y z).
  { destruct P as (Hx & Hy & Hz). unfold padded_v. lia. }
  destruct (d_vidx_exact d Hnx Hny Hnz Hfit x y z Pv) as [-> _].
  pose proof (scalar_count_fits d Hnx Hny Hnz Hfit) as Hfit2.
  destruct P as (Hx & Hy & Hz).
  pose proof (offset_bound (darcy_nx (darcy d) + 2) (darcy_ny (darcy d) + 2)
                (darcy_nz (darcy d) + 2) (x + 1) (y + 1) (z + 1)
                ltac:(lia) ltac:(lia) ltac:(lia)) as B.
  unfold d_idx. rewrite to_uint_small by lia.
  assert (D : (x + 1) + (darcy_nx (darcy d) + 3) * (y + 1)
              + (darcy_nx (darcy d) + 3) * (darcy_ny (darcy d) + 3) * (z + 1)
              - ((x + 1) + (darcy_nx (darcy d) + 2) * (y + 1)
                 + (darcy_nx (darcy d) + 2) * (darcy_ny (darcy d) + 2)
                   * (z + 1))
              = (y + 1)
                + (darcy_nx (darcy d) + darcy_ny (darcy d) + 5) * (z + 1))
    by ring.
  assert (0 <= (darcy_nx (darcy d) + darcy_ny (darcy d) + 5) * (z + 1))
    by nia.
  split; [lia|]. split.
  - intros E. assert (Hz0 : z + 1 = 0) by nia. lia.
  - intros [-> ->]. ring.
Qed.

Lemma d_idx_d_vidx_differ_witness :
  d_idx (blank_DEM 2 3 1) 0 0 0 <= d_vidx (blank_DEM 2 3 1) 0 0 0.
Proof.
  apply (d_idx_d_vidx_differ (blank_DEM 2 3 1));
    try (vm_compute; congruence).
  unfold padded; cbn; lia.
Defined.

(** X4: the arrays allocated by [initDarcyMem] hold every padded
    coordinate.  On a grid with positive cell counts whose padded count
    fits, [d_idx] of any padded coordinate is a position inside each of
    [p], [v], [phi], [dphi] and [norm], and position [darcyCells()] is
    the first one outside. *)
Theorem initDarcyMem_arrays_hold_padded_grid (mem : Fresh) (d : DEM) :
  1 <= at0 (grid_num (grid d)) -> 1 <= at1 (grid_num (grid d)) ->
  1 <= at2 (grid_num (grid d)) ->
  (at0 (grid_num (grid d)) + 2) * (at1 (grid_num (grid d)) + 2)
    * (at2 (grid_num (grid d)) + 2) < UINT_MODULUS ->
  let d' := snd (initDarcyMem (gives mem) d) in
  (forall x y z,
     padded d' x y z ->
     is_Some (darcy_p (darcy d') !! Z.to_nat (d_idx d' x y z)) /\
     is_Some (darcy_v (darcy d') !! Z.to_nat (d_idx d' x y z)) /\
     is_Some (darcy_phi (darcy d') !! Z.to_nat (d_idx d' x y z)) /\
     is_Some (darcy_dphi (darcy d') !! Z.to_nat (d_idx d' x y z)) /\
     is_Some (darcy_norm (darcy d') !! Z.to_nat (d_idx d' x y z))) /\
  darcy_p (darcy d') !! Z.to_nat (darcyCells d') = None /\
  darcy_v (darcy d') !! Z.to_nat (darcyCells d') = None /\
  darcy_phi (darcy d') !! Z.to_nat (darcyCells d') = None /\
  darcy_dphi (darcy d') !! Z.to_nat (darcyCells d') = None /\
  darcy_norm (darcy d') !! Z.to_nat (darcyCells d') = None.
Proof.
  intros H0 H1 H2 Hfit.
  rewrite initDarcyMem_run_fit by (assumption || lia). cbn [snd].
  set (d' := set_darcy d _). cbn zeta.
  assert (Hlen : forall A (h : nat -> A),
            length (new_array h (darcyCells d')) = Z.to_nat (darcyCells d'))
    by (intros; apply length_new_array).
  split.
  - intros x y z P.
    destruct (d_idx_exact d' H0 H1 H2 Hfit x y z P) as [_ B].
    assert (L : (Z.to_nat (d_idx d' x y z) < Z.to_nat (darcyCells d'))%nat)
      by (apply Z2Nat.inj_lt; lia).
    repeat split; apply lookup_lt_is_Some;
      cbn [d' set_darcy darcy darcy_p darcy_v darcy_phi darcy_dphi
           darcy_norm];
      rewrite length_new_array; exact L.
  - repeat split; apply lookup_ge_None;
      cbn [d' set_darcy darcy darcy_p darcy_v darcy_phi darcy_dphi
           darcy_norm];
      rewrite length_new_array; apply Nat.le_refl.
Qed.

Lemma initDarcyMem_arrays_hold_padded_grid_witness :
  is_Some (darcy_norm
             (darcy (snd (initDarcyMem (gives zero_Fresh) unallocated_DEM)))
           !! Z.to_nat
                (d_idx (snd (initDarcyMem (gives zero_Fresh) unallocated_DEM))
                   2 3 1)).
Proof.
  apply (initDarcyMem_arrays_hold_padded_grid zero_Fresh unallocated_DEM);
    try (vm_compute; congruence).
  unfold padded. vm_compute. repeat split; discriminate.
Defined.

(** ** More on [checkDarcyStability] *)

(** A scan looks at the cell values of the cells it visits only. *)
Lemma scan_ext {I V S} (val val' : I -> option V) bad report
    (upd : S -> V -> S) l s :
  (forall c, c ∈ l -> val c = val' c) ->
  scan val bad report upd l s = scan val' bad report upd l s.
Proof.
  revert s. induction l as [|c l IH]; intros s H; [reflexivity|].
  simpl. unfold scan_step. rewrite <- (H c) by left.
  destruct (val c) as [v|]; [|reflexivity].
  destruct (bad v); [reflexivity|]. apply IH. intros c' Hc'. apply H.
  now right.
Qed.

Lemma bind_nil_r {A B} (l : list A) : l ≫= (fun _ => @nil B) = [].
Proof. induction l as [|a l IH]; [reflexivity|]. now rewrite bind_cons, IH. Qed.

(** A loop nest with an empty range runs its body for no cell. *)
Lemma cells3_nil n1 n2 n3 :
  n1 <= 0 \/ n2 <= 0 \/ n3 <= 0 -> cells3 n1 n2 n3 = [].
Proof.
  unfold cells3. intros [H | [H | H]].
  - rewrite (seqZ_nil 0 n1) by assumption. reflexivity.
  - rewrite (seqZ_nil 0 n2) by assumption. apply bind_nil_r.
  - rewrite (seqZ_nil 0 n3) by assumption.
    induction (seqZ 0 n1) as [|i l IH]; [reflexivity|].
    rewrite bind_cons, IH, app_nil_r. apply bind_nil_r.
Qed.

(** X5: [checkDarcyStability] never changes the [DEM] object, whatever
    the outcome, and when it ends the process it does so with exit status
    [1] and either the diffusion diagnostic or the advection diagnostic of
    an interior cell together with the velocity stored for that cell. *)
Theorem checkDarcyStability_frame_and_exits (d : DEM) :
  snd (checkDarcyStability d) = d /\
  forall st msg,
    fst (checkDarcyStability d) = Exited st msg ->
    st = 1 /\
    (msg = DiffusionUnstable \/
     exists x y z v,
       msg = AdvectionUnstable x y z v /\ interior d x y z /\
       v_at d x y z = Some v /\ Fgt (courant_number d v) F1_0 = true).
Proof.
  rewrite checkDarcyStability_scan. cbn [fst snd]. split; [reflexivity|].
  intros st msg. destruct (Fgt (diffusion_number d) F0_5).
  - intros [= <- <-]. auto.
  - intros H. pose proof H as H'. apply scan_exited in H'
      as (l1 & [[x y] z] & v & l2 & E & _ & Ev & _ & -> & ->).
    split; [reflexivity|]. right. exists x, y, z, v.
    apply advection_scan_exit in H. tauto.
Qed.

(** The outcome of [checkDarcyStability] depends on the velocity array
    through the interior cells only. *)
Lemma checkDarcyStability_velocity_ext d v' :
  (forall x y z, interior d x y z ->
     v' !! Z.to_nat (d_idx d x y z) = v_at d x y z) ->
  fst (checkDarcyStability (with_velocity d v'))
  = fst (checkDarcyStability d).
Proof.
  intros H. rewrite !checkDarcyStability_scan. cbn [fst].
  change (diffusion_number (with_velocity d v')) with (diffusion_number d).
  destruct (Fgt (diffusion_number d) F0_5); [reflexivity|].
  change (advection_bad (with_velocity d v')) with (advection_bad d).
  cbn [with_velocity set_darcy darcy darcy_nx darcy_ny darcy_nz].
  apply scan_ext. intros [[x y] z] Hin. apply interior_cells3 in Hin.
  unfold advection_val. cbn [fst snd]. rewrite <- (H x y z Hin).
  reflexivity.
Qed.

(** Offsets of distinct padded coordinates are distinct array
    positions. *)
Lemma d_idx_position_ne d x y z x' y' z' :
  1 <= darcy_nx (darcy d) -> 1 <= darcy_ny (darcy d) ->
  1 <= darcy_nz (darcy d) ->
  (darcy_nx (darcy d) + 2) * (darcy_ny (darcy d) + 2)
    * (darcy_nz (darcy d) + 2) < UINT_MODULUS ->
  padded d x y z -> padded d x' y' z' ->
  (x, y, z) <> (x', y', z') ->
  Z.to_nat (d_idx d x y z) <> Z.to_nat (d_idx d x' y' z').
Proof.
  intros Hnx Hny Hnz Hfit P P' Hne E.
  destruct (d_idx_exact d Hnx Hny Hnz Hfit x y z P) as [_ B].
  destruct (d_idx_exact d Hnx Hny Hnz Hfit x' y' z' P') as [_ B'].
  apply Z2Nat.inj in E; [|lia|lia].
  destruct (d_idx_injective_fit d Hnx Hny Hnz Hfit _ _ _ _ _ _ P P' E)
    as (-> & -> & ->).
  now apply Hne.
Qed.

Lemma interior_padded d x y z : interior d x y z -> padded d x y z.
Proof. unfold interior, padded. lia. Qed.

(** X6: ghost nodes play no part in the stability check.  On a grid whose
    padded count fits, overwriting the velocity stored for any ghost node
    leaves the outcome of [checkDarcyStability] as it was. *)
Theorem checkDarcyStability_ignores_ghost_nodes (d : DEM) :
  1 <= darcy_nx (darcy d) -> 1 <= darcy_ny (darcy d) ->
  1 <= darcy_nz (darcy d) ->
  (darcy_nx (darcy d) + 2) * (darcy_ny (darcy d) + 2)
    * (darcy_nz (darcy d) + 2) < UINT_MODULUS ->
  forall gx gy gz w,
    ghost d gx gy gz ->
    fst (checkDarcyStability
           (with_velocity d
              (<[Z.to_nat (d_idx d gx gy gz) := w]> (darcy_v (darcy d)))))
    = fst (checkDarcyStability d).
Proof.
  intros Hnx Hny Hnz Hfit gx gy gz w [Pg Hg].
  apply checkDarcyStability_velocity_ext. intros x y z Hi.
  unfold v_at. apply list_lookup_insert_ne.
  apply d_idx_position_ne; auto using interior_padded.
  intros [= -> -> ->]. now apply Hg.
Qed.

Lemma checkDarcyStability_ignores_ghost_nodes_witness :
  fst (checkDarcyStability
         (with_velocity scenario_DEM
            (<[Z.to_nat (d_idx scenario_DEM (-1) 0 4)
               := mkFloat3 S754_nan S754_nan S754_nan]>
               (darcy_v (darcy scenario_DEM)))))
  = fst (checkDarcyStability scenario_DEM).
Proof.
  apply (checkDarcyStability_ignores_ghost_nodes scenario_DEM);
    try (vm_compute; congruence).
  split; [unfold padded; cbn; lia | unfold interior; cbn; lia].
Defined.

Lemma Fmul_nan_r a : Fmul a S754_nan = S754_nan.
Proof. now destruct a. Qed.

Lemma Fdiv_nan_l b : Fdiv S754_nan b = S754_nan.
Proof. now destruct b. Qed.

Lemma Fadd_nan_l b : Fadd S754_nan b = S754_nan.
Proof. now destruct b. Qed.

Lemma Fadd_nan_r a : Fadd a S754_nan = S754_nan.
Proof. now destruct a. Qed.

Lemma Fgt_nan_l b : Fgt S754_nan b = false.
Proof. now destruct b. Qed.

(** X7: a NaN time step defeats both tests.  When [time.dt] is NaN, the
    diffusion number and every Courant number are NaN, no comparison
    succeeds, and [checkDarcyStability] returns for every viscosity and
    every velocity field whose interior cells can be read. *)
Theorem checkDarcyStability_accepts_nan_time_step (d : DEM) :
  time_dt (time d) = S754_nan ->
  (forall x y z, interior d x y z -> is_Some (v_at d x y z)) ->
  diffusion_number d = S754_nan /\
  (forall v, courant_number d v = S754_nan) /\
  fst (checkDarcyStability d) = Returned tt.
Proof.
  intros Hdt Hread.
  assert (Hdiff : diffusion_number d = S754_nan).
  { unfold diffusion_number. now rewrite Hdt, Fmul_nan_r, Fdiv_nan_l. }
  assert (Hc : forall v, courant_number d v = S754_nan).
  { intros v. unfold courant_number.
    now rewrite Hdt, !Fmul_nan_r, !Fdiv_nan_l, Fadd_nan_l. }
  split; [exact Hdiff|]. split; [exact Hc|].
  apply checkDarcyStability_returns.
  - rewrite Hdiff. apply Fgt_nan_l.
  - intros x y z Hi. destruct (Hread x y z Hi) as [v Ev].
    exists v. split; [exact Ev|]. rewrite Hc. apply Fgt_nan_l.
Qed.

Lemma checkDarcyStability_accepts_nan_time_step_witness :
  fst (checkDarcyStability (with_dt scenario_DEM S754_nan)) = Returned tt.
Proof.
  apply (checkDarcyStability_accepts_nan_time_step
           (with_dt scenario_DEM S754_nan)); [reflexivity|].
  intros x y z (Hx & Hy & Hz). cbn in Hx, Hy, Hz.
  apply lookup_lt_is_Some.
  assert (B : 0 <= d_idx (with_dt scenario_DEM S754_nan) x y z < 216).
  { unfold d_idx, to_uint. cbn [with_dt darcy scenario_DEM sample_DEM
                                 darcy_nx darcy_ny].
    rewrite Z.mod_small; change UINT_MODULUS with 4294967296; lia. }
  change (length (darcy_v (darcy (with_dt scenario_DEM S754_nan))))
    with 216%nat.
  lia.
Defined.

(** X8: with no interior cell (some cell count not positive) the
    advection scan reads nothing: the outcome is decided by the diffusion
    test alone, also when no velocity array has been allocated. *)
Theorem checkDarcyStability_empty_grid (d : DEM) :
  darcy_nx (darcy d) <= 0 \/ darcy_ny (darcy d) <= 0
    \/ darcy_nz (darcy d) <= 0 ->
  fst (checkDarcyStability d)
  = if Fgt (diffusion_number d) F0_5 then Exited 1 DiffusionUnstable
    else Returned tt.
Proof.
  intros H. rewrite checkDarcyStability_scan. cbn [fst].
  now rewrite cells3_nil.
Qed.

Lemma checkDarcyStability_empty_grid_witness :
  fst (checkDarcyStability (blank_DEM 4 0 4)) = Returned tt.
Proof.
  rewrite (checkDarcyStability_empty_grid (blank_DEM 4 0 4)).
  - vm_compute. reflexivity.
  - cbn. lia.
Defined.

(** ** More on the residual functions *)

Lemma Fgt_key a b :
  is_nan a = false -> is_nan b = false ->
  (Fgt a b = true <-> lex3 (Fkey b) (Fkey a)).
Proof.
  unfold Fgt, SFltb, lex3.
  destruct a as [sa|[]| |[] ma ea], b as [sb|[]| |[] mb eb];
    intros Ha Hb; try discriminate; cbn;
    try (split; intros H; [try discriminate; lia | try reflexivity; lia]).
  - change (Pos.compare_cont Eq mb ma) with (Pos.compare mb ma).
    destruct (Z.compare_spec eb ea), (Pos.compare_spec mb ma); cbn;
      split; intros H'; try discriminate; try reflexivity; lia.
  - change (Pos.compare_cont Eq mb ma) with (Pos.compare mb ma).
    destruct (Z.compare_spec eb ea), (Pos.compare_spec mb ma); cbn;
      split; intros H'; try discriminate; try reflexivity; lia.
Qed.

Lemma Fgt_key_false a b :
  is_nan a = false -> is_nan b = false ->
  (Fgt a b = false <-> ~ lex3 (Fkey b) (Fkey a)).
Proof.
  intros Ha Hb. rewrite <- (Fgt_key a b Ha Hb).
  destruct (Fgt a b); split; congruence.
Qed.

(** [a <= b] and [b <= c] give [a <= c]. *)
Lemma Fle_trans a b c :
  is_nan a = false -> is_nan b = false -> is_nan c = false ->
  Fgt a b = false -> Fgt b c = false -> Fgt a c = false.
Proof.
  intros Ha Hb Hc. rewrite !Fgt_key_false by assumption.
  unfold lex3. lia.
Qed.

(** [a < b] and [b <= c] give [a <= c]. *)
Lemma Flt_le_weak a b c :
  is_nan a = false -> is_nan b = false -> is_nan c = false ->
  Fgt b a = true -> Fgt b c = false -> Fgt a c = false.
Proof.
  intros Ha Hb Hc. rewrite Fgt_key, !Fgt_key_false by assumption.
  unfold lex3. lia.
Qed.

(** [a < b] and [b < c] give [a < c]. *)
Lemma Flt_trans a b c :
  is_nan a = false -> is_nan b = false -> is_nan c = false ->
  Fgt b a = true -> Fgt c b = true -> Fgt c a = true.
Proof.
  intros Ha Hb Hc. rewrite !Fgt_key by assumption.
  unfold lex3. lia.
Qed.

(** The running maximum bounds every residual met so far, never drops
    below its starting value, and is that value or a residual above
    it. *)
Lemma max_scan_bound d l m r :
  is_nan m = false ->
  scan (residual_val d) residual_bad (residual_report d) max_upd l m
    = Returned r ->
  Fgt m r = false /\
  (forall c v, c ∈ l -> residual_val d c = Some v -> Fgt v r = false) /\
  (r = m \/ exists c, c ∈ l /\ residual_val d c = Some r /\ Fgt r m = true).
Proof.
  revert m. induction l as [|c l IH]; intros m Hm; simpl.
  - intros [= <-]. split; [apply Fgt_irrefl|]. split; [|now left].
    intros c v Hc. now apply elem_of_nil in Hc.
  - unfold scan_step. destruct (residual_val d c) as [v|] eqn:Ev;
      [|discriminate].
    unfold residual_bad. rewrite Fne_self.
    destruct (is_nan v) eqn:Hv; [discriminate|].
    intros H.
    assert (Hm1 : is_nan (max_upd m v) = false)
      by (unfold max_upd; now destruct (Fgt v m)).
    pose proof (max_scan_not_nan d l _ r Hm1 H) as Hr.
    destruct (IH _ Hm1 H) as (Hle & Hall & Hatt). clear IH.
    unfold max_upd in Hle, Hatt. destruct (Fgt v m) eqn:Hgt.
    + split; [now apply (Flt_le_weak m v r)|]. split.
      * intros c' v' Hc' Ev'. apply elem_of_cons in Hc' as [-> | Hc'].
        -- rewrite Ev in Ev'. now injection Ev' as <-.
        -- now apply (Hall c').
      * right. destruct Hatt as [-> | (c' & Hc' & Ev' & Hgt')].
        -- exists c. split; [left | auto].
        -- exists c'. split; [now right|]. split; [exact Ev'|].
           now apply (Flt_trans m v r).
    + split; [exact Hle|]. split.
      * intros c' v' Hc' Ev'. apply elem_of_cons in Hc' as [-> | Hc'].
        -- rewrite Ev in Ev'. injection Ev' as <-.
           now apply (Fle_trans v m r).
        -- now apply (Hall c').
      * destruct Hatt as [-> | (c' & Hc' & Ev' & Hgt')]; [now left|].
        right. exists c'. split; [now right | auto].
Qed.

(** X9: what [maxNormResDarcy] returns is an upper bound of the
    residuals of all interior cells and is not below the sentinel; it is
    the sentinel [-1.0e9] itself or the residual of some interior cell
    that lies above the sentinel. *)
Theorem maxNormResDarcy_is_upper_bound (d : DEM) (r : Float) :
  fst (maxNormResDarcy d) = Returned r ->
  (forall x y z v,
     residual_cell d x y z -> norm_at d x y z = Some v ->
     Fgt v r = false) /\
  Fgt Fm1e9 r = false /\
  (r = Fm1e9 \/
   exists x y z,
     residual_cell d x y z /\ norm_at d x y z = Some r /\
     Fgt r Fm1e9 = true).
Proof.
  rewrite maxNormResDarcy_scan. cbn [fst]. intros H.
  destruct (max_scan_bound d _ Fm1e9 r eq_refl H) as (Hle & Hall & Hatt).
  split; [|split; [exact Hle|]].
  - intros x y z v Hi Ev. apply (Hall (z, y, x)); [|exact Ev].
    now apply elem_of_residual_cells.
  - destruct Hatt as [-> | ([[z y] x] & Hc & Ev & Hgt)]; [now left|].
    right. exists x, y, z. apply elem_of_residual_cells in Hc. auto.
Qed.

Lemma maxNormResDarcy_is_upper_bound_witness :
  Fgt Fm1e9 (Float_of_Z 3) = false.
Proof.
  apply (maxNormResDarcy_is_upper_bound one_peak_DEM (Float_of_Z 3)).
  vm_compute. reflexivity.
Defined.

(** Whether and how a scan ends early does not depend on the running
    local. *)
Lemma scan_same_ending {C V S S'} (val : C -> option V) bad report
    (upd : S -> V -> S) (upd' : S' -> V -> S') l s s' :
  same_ending (scan val bad report upd l s) (scan val bad report upd' l s').
Proof.
  revert s s'. induction l as [|c l IH]; intros s s'; simpl; [exact I|].
  unfold scan_step. destruct (val c) as [v|]; [|exact I].
  destruct (bad v); [now split | apply IH].
Qed.

(** X10: the two residual functions end alike on every field, whatever
    [norm_res_sum] holds on entry: both return, or both leave the process
    with the same status and the same report, or both read outside the
    residual array. *)
Theorem residual_functions_end_alike (d : DEM) (norm_res_sum0 : Float) :
  same_ending (fst (avgNormResDarcy norm_res_sum0 d))
              (fst (maxNormResDarcy d)).
Proof.
  rewrite avgNormResDarcy_scan, maxNormResDarcy_scan. cbn [fst].
  pose proof (scan_same_ending (residual_val d) residual_bad
                (residual_report d) Fadd max_upd (residual_cells d)
                norm_res_sum0 Fm1e9) as H.
  destruct (scan _ _ _ Fadd (residual_cells d) norm_res_sum0); exact H.
Qed.

(** X11: on a grid without cells the residual functions read nothing.
    With some [grid.num] entry not positive [maxNormResDarcy] returns the
    sentinel [-1.0e9]; with some entry zero [avgNormResDarcy] divides
    what [norm_res_sum] held by zero and returns an infinity or NaN,
    never a finite number. *)
Theorem residual_functions_on_empty_grid (d : DEM) :
  (at0 (grid_num (grid d)) <= 0 \/ at1 (grid_num (grid d)) <= 0
     \/ at2 (grid_num (grid d)) <= 0 ->
   fst (maxNormResDarcy d) = Returned Fm1e9) /\
  (at0 (grid_num (grid d)) = 0 \/ at1 (grid_num (grid d)) = 0
     \/ at2 (grid_num (grid d)) = 0 ->
   forall norm_res_sum0,
     fst (avgNormResDarcy norm_res_sum0 d)
       = Returned (Fdiv norm_res_sum0 F0) /\
     is_finite (Fdiv norm_res_sum0 F0) = false).
Proof.
  split.
  - intros H. rewrite maxNormResDarcy_scan. cbn [fst].
    unfold residual_cells. rewrite cells3_nil; [reflexivity | tauto].
  - intros H s0. rewrite avgNormResDarcy_scan. cbn [fst].
    unfold residual_cells. rewrite cells3_nil by lia. cbn [scan].
    assert (E : residual_count d = F0).
    { unfold residual_count.
      replace (at0 (grid_num (grid d)) * at1 (grid_num (grid d))
               * at2 (grid_num (grid d))) with 0 by nia.
      reflexivity. }
    rewrite E. split; [reflexivity|]. now destruct s0 as [?|?| |? ? ?].
Qed.

Lemma residual_functions_on_empty_grid_witness :
  fst (maxNormResDarcy (blank_DEM 3 0 2)) = Returned Fm1e9.
Proof.
  apply (residual_functions_on_empty_grid (blank_DEM 3 0 2)). cbn. lia.
Defined.

(** The outcome of the residual functions depends on the residual array
    through the cells they visit only. *)
Lemma residual_functions_norm_ext d norm' norm_res_sum0 :
  (forall x y z, residual_cell d x y z ->
     norm' !! Z.to_nat (d_idx d x y z) = norm_at d x y z) ->
  fst (avgNormResDarcy norm_res_sum0 (with_norm d norm'))
    = fst (avgNormResDarcy norm_res_sum0 d) /\
  fst (maxNormResDarcy (with_norm d norm')) = fst (maxNormResDarcy d).
Proof.
  intros H.
  assert (Hval : forall c, c ∈ residual_cells d ->
            residual_val (with_norm d norm') c = residual_val d c).
  { intros [[z y] x] Hin. apply elem_of_residual_cells in Hin.
    unfold residual_val. cbn [fst snd]. rewrite <- (H x y z Hin).
    reflexivity. }
  rewrite !avgNormResDarcy_scan, !maxNormResDarcy_scan. cbn [fst].
  change (residual_report (with_norm d norm')) with (residual_report d).
  change (residual_cells (with_norm d norm')) with (residual_cells d).
  change (residual_count (with_norm d norm')) with (residual_count d).
  now rewrite !(scan_ext (residual_val (with_norm d norm')) (residual_val d))
    by exact Hval.
Qed.

(** X12: ghost nodes play no part in the residual statistics.  When the
    cell counts of [darcy] are those of [grid.num] (as [initDarcyMem]
    sets them) and the padded count fits, overwriting the residual stored
    for any ghost node leaves the outcomes of [avgNormResDarcy] and
    [maxNormResDarcy] as they were. *)
Theorem residual_functions_ignore_ghost_nodes (d : DEM) :
  grid_num (grid d)
    = mkND3 (darcy_nx (darcy d)) (darcy_ny (darcy d)) (darcy_nz (darcy d)) ->
  1 <= darcy_nx (darcy d) -> 1 <= darcy_ny (darcy d) ->
  1 <= darcy_nz (darcy d) ->
  (darcy_nx (darcy d) + 2) * (darcy_ny (darcy d) + 2)
    * (darcy_nz (darcy d) + 2) < UINT_MODULUS ->
  forall gx gy gz w norm_res_sum0,
    ghost d gx gy gz ->
    fst (avgNormResDarcy norm_res_sum0
           (with_norm d
              (<[Z.to_nat (d_idx d gx gy gz) := w]> (darcy_norm (darcy d)))))
      = fst (avgNormResDarcy norm_res_sum0 d) /\
    fst (maxNormResDarcy
           (with_norm d
              (<[Z.to_nat (d_idx d gx gy gz) := w]> (darcy_norm (darcy d)))))
      = fst (maxNormResDarcy d).
Proof.
  intros Hnum Hnx Hny Hnz Hfit gx gy gz w s0 [Pg Hg].
  apply residual_functions_norm_ext. intros x y z Hi.
  assert (Hint : interior d x y z).
  { unfold residual_cell in Hi. rewrite Hnum in Hi. exact Hi. }
  unfold norm_at. apply list_lookup_insert_ne.
  apply d_idx_position_ne; auto using interior_padded.
  intros [= -> -> ->]. now apply Hg.
Qed.

Lemma residual_functions_ignore_ghost_nodes_witness :
  fst (maxNormResDarcy
         (with_norm one_peak_DEM
            (<[Z.to_nat (d_idx one_peak_DEM 2 0 0) := S754_nan]>
               (darcy_norm (darcy one_peak_DEM)))))
  = fst (maxNormResDarcy one_peak_DEM).
Proof.
  apply (residual_functions_ignore_ghost_nodes one_peak_DEM);
    try reflexivity; try (vm_compute; congruence).
  - exact F0.
  - split; [unfold padded; cbn; lia | unfold interior; cbn; lia].
Defined.

Lemma length_bind_const {A B} (f : A -> list B) (l : list A) k :
  (forall a, length (f a) = k) -> length (l ≫= f) = (length l * k)%nat.
Proof.
  intros H. induction l as [|a l IH]; [reflexivity|].
  rewrite bind_cons, length_app, H, IH. simpl. lia.
Qed.

Lemma length_cells3 n1 n2 n3 :
  length (cells3 n1 n2 n3) = (Z.to_nat n1 * (Z.to_nat n2 * Z.to_nat n3))%nat.
Proof.
  unfold cells3.
  rewrite (length_bind_const _ _ (Z.to_nat n2 * Z.to_nat n3)%nat),
    length_seqZ; [reflexivity|].
  intros i.
  rewrite (length_bind_const _ _ (Z.to_nat n3)), length_seqZ; [reflexivity|].
  intros j. rewrite (length_bind_const _ _ 1%nat), length_seqZ; [lia|].
  reflexivity.
Qed.

Lemma StronglySorted_lex3_NoDup l : StronglySorted lex3 l -> NoDup l.
Proof.
  induction 1 as [|a l Hl IH Ha]; constructor; [|exact IH].
  intros Hin. rewrite Forall_forall in Ha.
  exact (lex3_irrefl a (Ha a Hin)).
Qed.

(** X13: the mean is taken over the cells that were summed.  For
    non-negative [grid.num] whose product is an [unsigned int], whenever
    [avgNormResDarcy] returns, its value is the content of [norm_res_sum]
    on entry plus the residuals of the
    [grid.num[0]*grid.num[1]*grid.num[2]] cells, each read once, added in
    scan order, divided by the number of residuals added. *)
Theorem avgNormResDarcy_divisor_is_cell_count (d : DEM)
    (norm_res_sum0 r : Float) :
  0 <= at0 (grid_num (grid d)) -> 0 <= at1 (grid_num (grid d)) ->
  0 <= at2 (grid_num (grid d)) ->
  at0 (grid_num (grid d)) * at1 (grid_num (grid d))
    * at2 (grid_num (grid d)) < UINT_MODULUS ->
  fst (avgNormResDarcy norm_res_sum0 d) = Returned r ->
  exists (cells : list (Z * Z * Z)) (vs : list Float),
    NoDup cells /\
    (forall x y z, (z, y, x) ∈ cells <-> residual_cell d x y z) /\
    StronglySorted lex3 cells /\
    Forall2 (fun c v => norm_at d c.2 c.1.2 c.1.1 = Some v) cells vs /\
    Z.of_nat (length vs)
      = at0 (grid_num (grid d)) * at1 (grid_num (grid d))
        * at2 (grid_num (grid d)) /\
    r = Fdiv (foldl Fadd norm_res_sum0 vs)
             (Float_of_Z (Z.of_nat (length vs))).
Proof.
  intros H0 H1 H2 Hfit Hr.
  destruct (avgNormResDarcy_value _ _ _ Hr) as (vs & Hvs & ->).
  assert (L : Z.of_nat (length (residual_cells d))
              = at0 (grid_num (grid d)) * at1 (grid_num (grid d))
                * at2 (grid_num (grid d))).
  { unfold residual_cells. rewrite length_cells3. rewrite !Nat2Z.inj_mul.
    rewrite !Z2Nat.id by assumption. ring. }
  assert (Lvs : length vs = length (residual_cells d))
    by (symmetry; exact (Forall2_length _ _ _ Hvs)).
  exists (residual_cells d), vs.
  split; [apply StronglySorted_lex3_NoDup, StronglySorted_cells3|].
  split; [intros x y z; apply elem_of_residual_cells|].
  split; [apply StronglySorted_cells3|].
  split; [exact Hvs|]. rewrite Lvs. split; [exact L|].
  rewrite L. unfold residual_count.
  rewrite to_uint_small; [reflexivity|]. nia.
Qed.

Lemma avgNormResDarcy_divisor_is_cell_count_witness :
  exists (cells : list (Z * Z * Z)) (vs : list Float),
    NoDup cells /\ Z.of_nat (length vs) = 8 /\
    Float_of_Z 0
    = Fdiv (foldl Fadd F0 vs) (Float_of_Z (Z.of_nat (length vs))).
Proof.
  destruct (avgNormResDarcy_divisor_is_cell_count
              (sample_DEM 2 (Float_of_Z 2) (Fq 1 10) F1_0
                 (mkFloat3 F0 F0 F0) (replicate 64 F0))
              F0 (Float_of_Z 0))
    as (cells & vs & Hnd & _ & _ & _ & Hlen & Hr);
    try (cbn; lia); try (vm_compute; reflexivity).
  exists cells, vs. auto.
Defined.

(** ** [initDarcy] *)

Lemma initDarcy_run out d :
  initDarcy out d =
  (let dx := Fdiv (at0 (grid_L (grid d))) (Float_of_Z (darcy_nx (darcy d))) in
   let dy := Fdiv (at1 (grid_L (grid d))) (Float_of_Z (darcy_ny (darcy d))) in
   let dz := Fdiv (at2 (grid_L (grid d))) (Float_of_Z (darcy_nz (darcy d))) in
   (Returned
      (if verbose d =? 1 then
         out ++
         [Cout [AStr "  - Fluid grid dimensions: "; AInt (darcy_nx (darcy d));
                AStr "*"; AInt (darcy_ny (darcy d)); AStr "*";
                AInt (darcy_nz (darcy d)); AEndl];
          Cout [AStr "  - Fluid grid cell size: "; AFloat dx;
                AStr "*"; AFloat dy; AStr "*"; AFloat dz; AEndl]]
       else out),
    set_darcy d
      (mkDarcy (darcy_nx (darcy d)) (darcy_ny (darcy d)) (darcy_nz (darcy d))
               dx dy dz
               (darcy_p (darcy d)) (darcy_v (darcy d)) (darcy_phi (darcy d))
               (darcy_dphi (darcy d)) (darcy_norm (darcy d))
               (darcy_f_p (darcy d))))).
Proof.
  unfold initDarcy. rewrite bind_get. unfold bind, put. cbn zeta.
  now destruct (verbose d =? 1).
Qed.

(** X14: when the entries of [grid.num] are [int] values, [initDarcy]
    run after a successful [initDarcyMem] stores in [darcy.dx],
    [darcy.dy], [darcy.dz] the very cell sizes [checkDarcyStability]
    computes for itself from [grid.L] and [grid.num], so the diffusion
    number is the one built from the stored sizes; it keeps the cell
    counts and all arrays, and writes to [std::cout] (two lines) only when
    [verbose] is [1]. *)
Theorem initDarcy_after_initDarcyMem (mem : Fresh) (d : DEM)
    (out : list Event) :
  0 <= at0 (grid_num (grid d)) <= INT_MAX ->
  0 <= at1 (grid_num (grid d)) <= INT_MAX ->
  0 <= at2 (grid_num (grid d)) <= INT_MAX ->
  let d1 := snd (initDarcyMem (gives mem) d) in
  let d2 := snd (initDarcy out d1) in
  darcy_dx (darcy d2) = cell_dx d2 /\
  darcy_dy (darcy d2) = cell_dy d2 /\
  darcy_dz (darcy d2) = cell_dz d2 /\
  diffusion_number d2
    = Fdiv (Fmul (params_mu (params d2)) (time_dt (time d2)))
           (Fmul (fmin (darcy_dx (darcy d2))
                       (fmin (darcy_dy (darcy d2)) (darcy_dz (darcy d2))))
                 (fmin (darcy_dx (darcy d2))
                       (fmin (darcy_dy (darcy d2)) (darcy_dz (darcy d2))))) /\
  (forall v, courant_number d2 v
     = Fadd (Fadd (Fdiv (Fmul (f3_x v) (time_dt (time d2)))
                        (darcy_dx (darcy d2)))
                  (Fdiv (Fmul (f3_y v) (time_dt (time d2)))
                        (darcy_dy (darcy d2))))
            (Fdiv (Fmul (f3_z v) (time_dt (time d2)))
                  (darcy_dz (darcy d2)))) /\
  same_fields d1 d2 /\
  darcy_nx (darcy d2) = at0 (grid_num (grid d)) /\
  darcy_ny (darcy d2) = at1 (grid_num (grid d)) /\
  darcy_nz (darcy d2) = at2 (grid_num (grid d)) /\
  grid d2 = grid d /\ time d2 = time d /\ params d2 = params d /\
  (verbose d <> 1 -> fst (initDarcy out d1) = Returned out) /\
  (verbose d = 1 ->
   exists line1 line2,
     fst (initDarcy out d1) = Returned (out ++ [Cout line1; Cout line2]) /\
     line1 = [AStr "  - Fluid grid dimensions: ";
              AInt (at0 (grid_num (grid d))); AStr "*";
              AInt (at1 (grid_num (grid d))); AStr "*";
              AInt (at2 (grid_num (grid d))); AEndl] /\
     line2 = [AStr "  - Fluid grid cell size: "; AFloat (cell_dx d);
              AStr "*"; AFloat (cell_dy d); AStr "*"; AFloat (cell_dz d);
              AEndl]).
Proof.
  intros H0 H1 H2 d1 d2. subst d2 d1.
  rewrite initDarcy_run, initDarcyMem_run by assumption.
  cbn zeta. cbn [fst snd].
  unfold diffusion_number, courant_number, cell_dmin, cell_dx, cell_dy,
    cell_dz, same_fields.
  cbn [set_darcy darcy grid time params verbose darcy_nx darcy_ny darcy_nz
       darcy_dx darcy_dy darcy_dz darcy_p darcy_v darcy_phi darcy_dphi
       darcy_norm darcy_f_p].
  repeat split.
  - intros Hv. destruct (verbose d =? 1) eqn:E; [|reflexivity].
    apply Z.eqb_eq in E. contradiction.
  - intros ->. cbn [Z.eqb Pos.eqb]. eexists _, _.
    split; [reflexivity|]. split; reflexivity.
Qed.

Lemma initDarcy_after_initDarcyMem_witness :
  fst (initDarcy [] (snd (initDarcyMem (gives zero_Fresh) unallocated_DEM)))
  = Returned [].
Proof.
  apply (initDarcy_after_initDarcyMem zero_Fresh unallocated_DEM []);
    try (vm_compute; split; discriminate).
  cbn. lia.
Defined.

Lemma Fdiv_by_zero a : is_finite (Fdiv a (Float_of_Z 0)) = false.
Proof. now destruct a as [?|?| |? ? ?]. Qed.

(** X15: [initDarcy] does not guard its divisions.  With a cell count of
    zero along an axis, as before [initDarcyMem] has run on a fresh
    object, the cell size it stores for that axis is an infinity or NaN,
    never a finite number. *)
Theorem initDarcy_zero_count (d : DEM) (out : list Event) :
  (darcy_nx (darcy d) = 0 ->
   is_finite (darcy_dx (darcy (snd (initDarcy out d)))) = false) /\
  (darcy_ny (darcy d) = 0 ->
   is_finite (darcy_dy (darcy (snd (initDarcy out d)))) = false) /\
  (darcy_nz (darcy d) = 0 ->
   is_finite (darcy_dz (darcy (snd (initDarcy out d)))) = false).
Proof.
  rewrite initDarcy_run. cbn zeta.
  cbn [snd set_darcy darcy darcy_dx darcy_dy darcy_dz].
  repeat split; intros ->; apply Fdiv_by_zero.
Qed.

Lemma initDarcy_zero_count_witness :
  is_finite (darcy_dy (darcy (snd (initDarcy [] (blank_DEM 4 0 4))))) = false.
Proof.
  apply (initDarcy_zero_count (blank_DEM 4 0 4) []). reflexivity.
Defined.

(** ** The dumps *)

(** A loop whose body appends [g j] to what was written writes the
    pieces one after the other. *)
Lemma for_each_emit {J} (g : J -> list Event)
    (body : J -> list Event -> M (list Event)) (d : DEM) (l : list J) :
  (forall j, j ∈ l -> forall out, body j out d = (Returned (out ++ g j), d)) ->
  forall out, for_each l body out d = (Returned (out ++ (l ≫= g)), d).
Proof.
  induction l as [|j l IH]; intros H out; cbn [for_each].
  - unfold ret. change ([] ≫= g) with (@nil Event). now rewrite app_nil_r.
  - unfold bind. rewrite (H j) by left.
    rewrite IH by (intros j' Hj'; apply H; now right).
    now rewrite bind_cons, app_assoc.
Qed.

Lemma list_bind_assoc {A B C} (f : A -> list B) (h : B -> list C) l :
  (l ≫= f) ≫= h = l ≫= (fun a => f a ≫= h).
Proof.
  induction l as [|a l IH]; [reflexivity|].
  now rewrite !bind_cons, bind_app, IH.
Qed.

Lemma bind_nil_ext {A B} (f : A -> list B) l :
  (forall a, f a = []) -> l ≫= f = [].
Proof.
  intros H. induction l as [|a l IH]; [reflexivity|].
  now rewrite bind_cons, H, IH.
Qed.

Lemma bind_singleton_id {A} (l : list A) : l ≫= (fun a => [a]) = l.
Proof.
  induction l as [|a l IH]; [reflexivity|]. now rewrite bind_cons, IH.
Qed.

Lemma Forall2_bind_singleton {A B} (P : A -> B -> Prop) (h : A -> B) l :
  (forall a, a ∈ l -> P a (h a)) -> Forall2 P l (l ≫= (fun a => [h a])).
Proof.
  induction l as [|a l IH]; intros H; [constructor|].
  rewrite bind_cons. constructor; [apply H; left|].
  apply IH. intros a' Ha'. apply H. now right.
Qed.

Lemma elem_of_scalar_dump_cells d x y z :
  (x, y, z) ∈ scalar_dump_cells d <-> padded d x y z.
Proof.
  unfold scalar_dump_cells, padded. rewrite list_elem_of_bind. split.
  - intros (z' & H & Hz). apply list_elem_of_bind in H as (y' & H & Hy).
    apply list_elem_of_bind in H as (x' & H & Hx).
    apply list_elem_of_singleton in H. injection H as -> -> ->.
    rewrite elem_of_reverse in Hz. apply elem_of_seqZ in Hx, Hy, Hz. lia.
  - intros (Hx & Hy & Hz). exists z.
    split; [|rewrite elem_of_reverse, elem_of_seqZ; lia].
    apply list_elem_of_bind. exists y. split; [|apply elem_of_seqZ; lia].
    apply list_elem_of_bind. exists x. split; [|apply elem_of_seqZ; lia].
    now apply list_elem_of_singleton.
Qed.

Lemma NoDup_bind3 (l1 l2 l3 : list Z) :
  NoDup l1 -> NoDup l2 -> NoDup l3 ->
  NoDup (z ← l1; y ← l2; x ← l3; [(x, y, z)]).
Proof.
  intros H1 H2 H3. apply NoDup_bind; [| |exact H1].
  - intros z z' c _ _ Hc Hc'.
    apply list_elem_of_bind in Hc as (y & Hc & _).
    apply list_elem_of_bind in Hc as (x & Hc & _).
    apply list_elem_of_bind in Hc' as (y' & Hc' & _).
    apply list_elem_of_bind in Hc' as (x' & Hc' & _).
    apply list_elem_of_singleton in Hc, Hc'. congruence.
  - intros z _. apply NoDup_bind; [| |exact H2].
    + intros y y' c _ _ Hc Hc'.
      apply list_elem_of_bind in Hc as (x & Hc & _).
      apply list_elem_of_bind in Hc' as (x' & Hc' & _).
      apply list_elem_of_singleton in Hc, Hc'. congruence.
    + intros y _. apply NoDup_bind; [| |exact H3].
      * intros x x' c _ _ Hc Hc'.
        apply list_elem_of_singleton in Hc, Hc'. congruence.
      * intros x _. apply NoDup_singleton.
Qed.

Lemma printed_floats_app a b :
  printed_floats (a ++ b) = printed_floats a ++ printed_floats b.
Proof. apply bind_app. Qed.

Lemma printed_ints_app a b :
  printed_ints (a ++ b) = printed_ints a ++ printed_ints b.
Proof. apply bind_app. Qed.

Lemma printed_floats_bind {J} (g : J -> list Event) l :
  printed_floats (l ≫= g) = l ≫= (fun j => printed_floats (g j)).
Proof. unfold printed_floats. apply list_bind_assoc. Qed.

Lemma printed_ints_bind {J} (g : J -> list Event) l :
  printed_ints (l ≫= g) = l ≫= (fun j => printed_ints (g j)).
Proof. unfold printed_ints. apply list_bind_assoc. Qed.

Lemma printDarcyArray_run stream arr out d :
  (forall x y z, padded d x y z ->
     is_Some (arr !! Z.to_nat (d_idx d x y z))) ->
  printDarcyArray stream arr out d
  = (Returned (out ++ scalar_dump stream arr d), d).
Proof.
  intros Hread. unfold printDarcyArray, scalar_dump. rewrite bind_get.
  unfold for_down_to.
  apply (for_each_emit
    (fun z =>
       [Fprintf stream "z = %d\n" [AInt z]] ++
       (y ← seqZ (-1) (darcy_ny (darcy d) - -1 + 1);
        (x ← seqZ (-1) (darcy_nx (darcy d) - -1 + 1);
         [scalar_cell stream arr d x y z]) ++ [Fprintf stream "\n" []]) ++
       [Fprintf stream "\n" []])).
  intros z Hz out1. rewrite elem_of_reverse, elem_of_seqZ in Hz.
  erewrite bind_run.
  2:{ unfold for_from_to.
      apply (for_each_emit
        (fun y =>
           (x ← seqZ (-1) (darcy_nx (darcy d) - -1 + 1);
            [scalar_cell stream arr d x y z]) ++ [Fprintf stream "\n" []])).
      intros y Hy out2. apply elem_of_seqZ in Hy.
      erewrite bind_run.
      2:{ apply (for_each_emit (fun x => [scalar_cell stream arr d x y z])).
          intros x Hx out3. apply elem_of_seqZ in Hx.
          change (negb (color_output =? 0)) with false. cbv iota.
          destruct (Hread x y z) as [a Ea]; [unfold padded; lia|].
          unfold bind, read, scalar_cell. rewrite Ea. cbn [default].
          unfold ret.
          now destruct ((x >? -1) && (x <? darcy_nx (darcy d)) &&
                        (y >? -1) && (y <? darcy_ny (darcy d)) &&
                        (z >? -1) && (z <? darcy_nz (darcy d))). }
      cbv beta iota. unfold ret. now rewrite <- app_assoc. }
  cbv beta iota. unfold ret. now rewrite <- !app_assoc.
Qed.

(** X16: the scalar dump covers the padded grid.  When every padded node
    of the array can be read, [printDarcyArray] returns having written,
    to the given stream only, one header per slice from [z = nz] down to
    [z = -1] and one value for each padded coordinate exactly once, in
    the order [z] downwards, then [y], then [x]; ghost nodes are written
    with the same format as interior cells. *)
Theorem printDarcyArray_covers_padded_grid (stream : Stream)
    (arr : list Float) (out : list Event) (d : DEM) :
  (forall x y z, padded d x y z ->
     is_Some (arr !! Z.to_nat (d_idx d x y z))) ->
  exists written,
    printDarcyArray stream arr out d = (Returned (out ++ written), d) /\
    Forall2 (fun c a => arr !! Z.to_nat (d_idx d c.1.1 c.1.2 c.2) = Some a)
            (scalar_dump_cells d) (printed_floats written) /\
    printed_ints written
      = reverse (seqZ (-1) (darcy_nz (darcy d) + 2)) /\
    Forall (fun e => exists args,
              e = Fprintf stream "z = %d\n" args \/
              e = Fprintf stream "%f\t" args \/
              e = Fprintf stream "\n" args) written /\
    NoDup (scalar_dump_cells d) /\
    (forall x y z, (x, y, z) ∈ scalar_dump_cells d <-> padded d x y z).
Proof.
  intros Hread. exists (scalar_dump stream arr d).
  split; [now apply printDarcyArray_run|]. split; [|split; [|split; [|split]]].
  - assert (E : printed_floats (scalar_dump stream arr d)
                = scalar_dump_cells d ≫=
                    (fun c => [default F0
                                 (arr !! Z.to_nat (d_idx d c.1.1 c.1.2 c.2))])).
    { unfold scalar_dump, scalar_dump_cells.
      rewrite printed_floats_bind, list_bind_assoc.
      apply list_bind_ext; [|reflexivity]. intros z.
      rewrite !printed_floats_app.
      change (printed_floats [Fprintf stream "z = %d\n" [AInt z]])
        with (@nil Float).
      change (printed_floats [Fprintf stream "\n" []]) with (@nil Float).
      rewrite app_nil_l, app_nil_r, printed_floats_bind, list_bind_assoc.
      apply list_bind_ext; [|reflexivity]. intros y.
      rewrite printed_floats_app.
      change (printed_floats [Fprintf stream "\n" []]) with (@nil Float).
      rewrite app_nil_r, printed_floats_bind, list_bind_assoc.
      apply list_bind_ext; [|reflexivity]. intros x. reflexivity. }
    rewrite E. apply Forall2_bind_singleton. intros [[x y] z] Hc.
    apply elem_of_scalar_dump_cells in Hc. cbn [fst snd].
    destruct (Hread x y z Hc) as [a ->]. reflexivity.
  - unfold scalar_dump. rewrite printed_ints_bind.
    replace (darcy_nz (darcy d) - -1 + 1) with (darcy_nz (darcy d) + 2)
      by lia.
    rewrite <- (bind_singleton_id (reverse _)) at 2.
    apply list_bind_ext; [|reflexivity]. intros z.
    rewrite !printed_ints_app.
    change (printed_ints [Fprintf stream "z = %d\n" [AInt z]]) with [z].
    change (printed_ints [Fprintf stream "\n" []]) with (@nil Z).
    rewrite printed_ints_bind, bind_nil_ext; [reflexivity|].
    intros y. rewrite printed_ints_app, printed_ints_bind.
    rewrite bind_nil_ext; reflexivity.
  - unfold scalar_dump. apply Forall_bind, Forall_forall. intros z _.
    cbn [compose]. apply Forall_app. split; [repeat constructor; eauto|].
    apply Forall_app. split; [|repeat constructor; eauto].
    apply Forall_bind, Forall_forall. intros y _. cbn [compose].
    apply Forall_app. split; [|repeat constructor; eauto].
    apply Forall_bind, Forall_forall. intros x _. cbn [compose].
    repeat constructor. unfold scalar_cell. eauto.
  - unfold scalar_dump_cells.
    apply NoDup_bind3; [rewrite reverse_Permutation| |]; apply NoDup_seqZ.
  - intros x y z. apply elem_of_scalar_dump_cells.
Qed.

Lemma printDarcyArray_covers_padded_grid_witness :
  exists written,
    printDarcyArray Stdout (darcy_norm (darcy one_cell_zero_DEM)) []
      one_cell_zero_DEM
    = (Returned ([] ++ written), one_cell_zero_DEM).
Proof.
  destruct (printDarcyArray_covers_padded_grid Stdout
              (darcy_norm (darcy one_cell_zero_DEM)) [] one_cell_zero_DEM)
    as (written & H & _).
  - intros x y z (Hx & Hy & Hz). cbn in Hx, Hy, Hz.
    apply lookup_lt_is_Some.
    assert (B : 0 <= d_idx one_cell_zero_DEM x y z < 27).
    { unfold d_idx, to_uint.
      cbn [darcy one_cell_zero_DEM sample_DEM darcy_nx darcy_ny].
      rewrite Z.mod_small; change UINT_MODULUS with 4294967296; lia. }
    change (length (darcy_norm (darcy one_cell_zero_DEM))) with 27%nat.
    lia.
  - exists written. exact H.
Defined.

Lemma elem_of_vector_dump_cells d x y z :
  (x, y, z) ∈ vector_dump_cells d <-> interior d x y z.
Proof.
  unfold vector_dump_cells, interior. rewrite list_elem_of_bind. split.
  - intros (z' & H & Hz). apply list_elem_of_bind in H as (y' & H & Hy).
    apply list_elem_of_bind in H as (x' & H & Hx).
    apply list_elem_of_singleton in H. injection H as -> -> ->.
    apply elem_of_seqZ in Hx, Hy, Hz. lia.
  - intros (Hx & Hy & Hz). exists z. split; [|apply elem_of_seqZ; lia].
    apply list_elem_of_bind. exists y. split; [|apply elem_of_seqZ; lia].
    apply list_elem_of_bind. exists x. split; [|apply elem_of_seqZ; lia].
    now apply list_elem_of_singleton.
Qed.

Lemma printDarcyArray3_run stream arr out d :
  (forall x y z, interior d x y z ->
     is_Some (arr !! Z.to_nat (d_idx d x y z))) ->
  printDarcyArray3 stream arr out d
  = (Returned (out ++ vector_dump stream arr d), d).
Proof.
  intros Hread. unfold printDarcyArray3, vector_dump. rewrite bind_get.
  unfold for_upto.
  apply (for_each_emit
    (fun z =>
       (y ← seqZ 0 (darcy_ny (darcy d));
        (x ← seqZ 0 (darcy_nx (darcy d));
         [vector_cell stream arr d x y z]) ++ [Fprintf stream "\n" []]) ++
       [Fprintf stream "\n" []])).
  intros z Hz out1. apply elem_of_seqZ in Hz.
  erewrite bind_run.
  2:{ apply (for_each_emit
        (fun y =>
           (x ← seqZ 0 (darcy_nx (darcy d));
            [vector_cell stream arr d x y z]) ++ [Fprintf stream "\n" []])).
      intros y Hy out2. apply elem_of_seqZ in Hy.
      erewrite bind_run.
      2:{ apply (for_each_emit (fun x => [vector_cell stream arr d x y z])).
          intros x Hx out3. apply elem_of_seqZ in Hx.
          destruct (Hread x y z) as [a Ea]; [unfold interior; lia|].
          unfold bind, read, vector_cell. rewrite Ea. reflexivity. }
      cbv beta iota. unfold ret. now rewrite <- app_assoc. }
  cbv beta iota. unfold ret. now rewrite <- app_assoc.
Qed.

(** X17: the vector dump covers the interior only.  When every interior
    cell of the array can be read, the vector form of [printDarcyArray]
    returns having written the three components of each interior cell
    exactly once, in the order [z], then [y], then [x], upwards; no ghost
    node and no slice header is written. *)
Theorem printDarcyArray3_covers_interior (stream : Stream)
    (arr : list Float3) (out : list Event) (d : DEM) :
  (forall x y z, interior d x y z ->
     is_Some (arr !! Z.to_nat (d_idx d x y z))) ->
  exists written,
    printDarcyArray3 stream arr out d = (Returned (out ++ written), d) /\
    printed_floats written
      = vector_dump_cells d ≫=
          (fun c => match arr !! Z.to_nat (d_idx d c.1.1 c.1.2 c.2) with
                    | Some v => [f3_x v; f3_y v; f3_z v]
                    | None => []
                    end) /\
    printed_ints written = [] /\
    Forall (fun e => exists args,
              e = Fprintf stream "%f,%f,%f\t" args \/
              e = Fprintf stream "\n" args) written /\
    NoDup (vector_dump_cells d) /\
    (forall x y z, (x, y, z) ∈ vector_dump_cells d <-> interior d x y z).
Proof.
  intros Hread. exists (vector_dump stream arr d).
  split; [now apply printDarcyArray3_run|].
  split; [|split; [|split; [|split]]].
  - transitivity
      (vector_dump_cells d ≫=
         (fun c => let v := default (mkFloat3 F0 F0 F0)
                              (arr !! Z.to_nat (d_idx d c.1.1 c.1.2 c.2)) in
                   [f3_x v; f3_y v; f3_z v])).
    + unfold vector_dump, vector_dump_cells.
      rewrite printed_floats_bind, list_bind_assoc.
      apply list_bind_ext; [|reflexivity]. intros z.
      rewrite printed_floats_app.
      change (printed_floats [Fprintf stream "\n" []]) with (@nil Float).
      rewrite app_nil_r, printed_floats_bind, list_bind_assoc.
      apply list_bind_ext; [|reflexivity]. intros y.
      rewrite printed_floats_app.
      change (printed_floats [Fprintf stream "\n" []]) with (@nil Float).
      rewrite app_nil_r, printed_floats_bind, list_bind_assoc.
      apply list_bind_ext; [|reflexivity]. intros x. reflexivity.
    + apply Forall_bind_ext, Forall_forall. intros [[x y] z] Hc.
      apply elem_of_vector_dump_cells in Hc. cbn [fst snd].
      destruct (Hread x y z Hc) as [a ->]. reflexivity.
  - unfold vector_dump. rewrite printed_ints_bind.
    apply bind_nil_ext. intros z. rewrite printed_ints_app.
    change (printed_ints [Fprintf stream "\n" []]) with (@nil Z).
    rewrite app_nil_r, printed_ints_bind. apply bind_nil_ext. intros y.
    rewrite printed_ints_app, printed_ints_bind.
    rewrite bind_nil_ext; reflexivity.
  - unfold vector_dump. apply Forall_bind, Forall_forall. intros z _.
    cbn [compose]. apply Forall_app. split; [|repeat constructor; eauto].
    apply Forall_bind, Forall_forall. intros y _. cbn [compose].
    apply Forall_app. split; [|repeat constructor; eauto].
    apply Forall_bind, Forall_forall. intros x _. cbn [compose].
    repeat constructor. unfold vector_cell. eauto.
  - unfold vector_dump_cells. apply NoDup_bind3; apply NoDup_seqZ.
  - intros x y z. apply elem_of_vector_dump_cells.
Qed.

Lemma printDarcyArray3_covers_interior_witness :
  exists written,
    printDarcyArray3 Stdout (darcy_v (darcy on_bounds_DEM)) [] on_bounds_DEM
    = (Returned ([] ++ written), on_bounds_DEM).
Proof.
  destruct (printDarcyArray3_covers_interior Stdout
              (darcy_v (darcy on_bounds_DEM)) [] on_bounds_DEM)
    as (written & H & _).
  - intros x y z (Hx & Hy & Hz). cbn in Hx, Hy, Hz.
    assert (x = 0) as -> by lia. assert (y = 0) as -> by lia.
    assert (z = 0) as -> by lia. eexists. vm_compute. reflexivity.
  - exists written. exact H.
Defined.

(** ** What the dumps never do *)

Lemma quiet_ret {A} (a : A) : quiet (ret a).
Proof. intros d. split; [reflexivity | discriminate]. Qed.

Lemma quiet_read {A} (arr : list A) i : quiet (read arr i).
Proof.
  intros d. unfold read. destruct (arr !! Z.to_nat i);
    split; try reflexivity; discriminate.
Qed.

Lemma quiet_bind {A B} (m : M A) (k : A -> M B) :
  quiet m -> (forall a, quiet (k a)) -> quiet (bind m k).
Proof.
  intros Hm Hk d. unfold bind. destruct (Hm d) as [Hs He].
  destruct (m d) as [[a|st msg|] d']; cbn [fst snd] in Hs, He; subst d'.
  - apply Hk.
  - now destruct (He st msg).
  - split; [reflexivity | discriminate].
Qed.

Lemma quiet_bind_get {A} (k : DEM -> M A) :
  (forall d, quiet (k d)) -> quiet (bind get k).
Proof. intros Hk d. rewrite bind_get. apply Hk. Qed.

Lemma quiet_for_each {J S} (body : J -> S -> M S) (l : list J) :
  (forall j s, quiet (body j s)) -> forall s, quiet (for_each l body s).
Proof.
  intros Hb. induction l as [|j l IH]; intros s; cbn [for_each].
  - apply quiet_ret.
  - apply quiet_bind; [apply Hb | exact IH].
Qed.

Lemma quiet_printDarcyArray stream arr out :
  quiet (printDarcyArray stream arr out).
Proof.
  unfold printDarcyArray. apply quiet_bind_get. intros d.
  apply quiet_for_each. intros z out1.
  apply quiet_bind; [|intros; apply quiet_ret].
  apply quiet_for_each. intros y out2.
  apply quiet_bind; [|intros; apply quiet_ret].
  apply quiet_for_each. intros x out3.
  destruct ((x >? -1) && (x <? darcy_nx (darcy d)) &&
            (y >? -1) && (y <? darcy_ny (darcy d)) &&
            (z >? -1) && (z <? darcy_nz (darcy d)));
    [|destruct (negb (color_output =? 0))];
    (apply quiet_bind; [apply quiet_read | intros; apply quiet_ret]).
Qed.

Lemma quiet_printDarcyArray3 stream arr out :
  quiet (printDarcyArray3 stream arr out).
Proof.
  unfold printDarcyArray3. apply quiet_bind_get. intros d.
  apply quiet_for_each. intros z out1.
  apply quiet_bind; [|intros; apply quiet_ret].
  apply quiet_for_each. intros y out2.
  apply quiet_bind; [|intros; apply quiet_ret].
  apply quiet_for_each. intros x out3.
  apply quiet_bind; [apply quiet_read | intros a].
  apply quiet_bind; [apply quiet_read | intros b].
  apply quiet_bind; [apply quiet_read | intros c]. apply quiet_ret.
Qed.

(** A loop that returns has had its body return for every value of the
    loop variable. *)
Lemma for_each_returned {J S} (body : J -> S -> M S) (l : list J) s d s' d' :
  for_each l body s d = (Returned s', d') ->
  forall j, j ∈ l -> exists s1 d1 s2 d2, body j s1 d1 = (Returned s2, d2).
Proof.
  revert s d. induction l as [|j0 l IH]; intros s d H j Hj.
  - now apply elem_of_nil in Hj.
  - cbn [for_each] in H. unfold bind in H.
    destruct (body j0 s d) as [[s1| |] d1] eqn:E; try discriminate.
    apply elem_of_cons in Hj as [-> | Hj]; [eauto|].
    exact (IH _ _ H j Hj).
Qed.

Lemma bind_returned {A B} (m : M A) (k : A -> M B) d b d' :
  bind m k d = (Returned b, d') ->
  exists a d1, m d = (Returned a, d1) /\ k a d1 = (Returned b, d').
Proof.
  unfold bind. destruct (m d) as [[a| |] d1]; try discriminate. eauto.
Qed.

Lemma read_returned {A} (arr : list A) i d a d' :
  read arr i d = (Returned a, d') -> is_Some (arr !! Z.to_nat i).
Proof.
  unfold read. destruct (arr !! Z.to_nat i); [eauto | discriminate].
Qed.

Lemma printDarcyArray_returned stream arr out d w d' :
  printDarcyArray stream arr out d = (Returned w, d') ->
  forall x y z, padded d x y z -> is_Some (arr !! Z.to_nat (d_idx d x y z)).
Proof.
  unfold printDarcyArray. rewrite bind_get. unfold for_down_to.
  intros H x y z (Hx & Hy & Hz).
  destruct (for_each_returned _ _ _ _ _ _ H z) as (o1 & d1 & o2 & d2 & Ez).
  { rewrite elem_of_reverse, elem_of_seqZ. lia. }
  cbv beta in Ez. apply bind_returned in Ez as (o3 & d3 & Ey & _).
  unfold for_from_to in Ey.
  destruct (for_each_returned _ _ _ _ _ _ Ey y) as (o4 & d4 & o5 & d5 & Ey').
  { rewrite elem_of_seqZ. lia. }
  cbv beta in Ey'. apply bind_returned in Ey' as (o6 & d6 & Ex & _).
  unfold for_from_to in Ex.
  destruct (for_each_returned _ _ _ _ _ _ Ex x) as (o7 & d7 & o8 & d8 & Ex').
  { rewrite elem_of_seqZ. lia. }
  cbv beta in Ex'.
  destruct ((x >? -1) && (x <? darcy_nx (darcy d)) &&
            (y >? -1) && (y <? darcy_ny (darcy d)) &&
            (z >? -1) && (z <? darcy_nz (darcy d)));
    [|destruct (negb (color_output =? 0))];
    apply bind_returned in Ex' as (a & d9 & Er & _);
    exact (read_returned _ _ _ _ _ Er).
Qed.

Lemma printDarcyArray3_returned stream arr out d w d' :
  printDarcyArray3 stream arr out d = (Returned w, d') ->
  forall x y z, interior d x y z -> is_Some (arr !! Z.to_nat (d_idx d x y z)).
Proof.
  unfold printDarcyArray3. rewrite bind_get. unfold for_upto.
  intros H x y z (Hx & Hy & Hz).
  destruct (for_each_returned _ _ _ _ _ _ H z) as (o1 & d1 & o2 & d2 & Ez).
  { rewrite elem_of_seqZ. lia. }
  cbv beta in Ez. apply bind_returned in Ez as (o3 & d3 & Ey & _).
  destruct (for_each_returned _ _ _ _ _ _ Ey y) as (o4 & d4 & o5 & d5 & Ey').
  { rewrite elem_of_seqZ. lia. }
  cbv beta in Ey'. apply bind_returned in Ey' as (o6 & d6 & Ex & _).
  destruct (for_each_returned _ _ _ _ _ _ Ex x) as (o7 & d7 & o8 & d8 & Ex').
  { rewrite elem_of_seqZ. lia. }
  cbv beta in Ex'. apply bind_returned in Ex' as (a & d9 & Er & _).
  exact (read_returned _ _ _ _ _ Er).
Qed.

(** An outcome of a call that is quiet is a return or a read outside an
    array. *)
Lemma quiet_outcome {A} (m : M A) d :
  quiet m -> (exists a, fst (m d) = Returned a) \/ fst (m d) = Undefined.
Proof.
  intros Hq. destruct (Hq d) as [_ He].
  destruct (fst (m d)) as [a|st msg|]; [eauto | now destruct (He st msg) | auto].
Qed.

(** X18: the dumps fail only by reading outside the array.  Each form of
    [printDarcyArray] and [writeDarcyArray] leaves the [DEM] object as it
    was and never leaves through [exit] or an exception, for every array,
    stream, file name and result of [fopen].  The scalar dump returns
    exactly when every padded node of the array can be read, the vector
    dump exactly when every interior cell can be; in every other case the
    outcome is a read outside the array, which is undefined. *)
Theorem dumps_fail_only_out_of_bounds :
  (forall stream arr out, quiet (printDarcyArray stream arr out)) /\
  (forall stream arr desc out,
     quiet (printDarcyArray_desc stream arr desc out)) /\
  (forall stream arr out, quiet (printDarcyArray3 stream arr out)) /\
  (forall stream arr desc out,
     quiet (printDarcyArray3_desc stream arr desc out)) /\
  (forall fopen_ok array filename out,
     quiet (writeDarcyArray fopen_ok array filename out)) /\
  (forall fopen_ok array filename out,
     quiet (writeDarcyArray3 fopen_ok array filename out)) /\
  (forall stream arr out d,
     ((exists w, fst (printDarcyArray stream arr out d) = Returned w)
      <-> forall x y z, padded d x y z ->
            is_Some (arr !! Z.to_nat (d_idx d x y z))) /\
     (fst (printDarcyArray stream arr out d) = Undefined
      <-> ~ forall x y z, padded d x y z ->
              is_Some (arr !! Z.to_nat (d_idx d x y z)))) /\
  (forall stream arr out d,
     ((exists w, fst (printDarcyArray3 stream arr out d) = Returned w)
      <-> forall x y z, interior d x y z ->
            is_Some (arr !! Z.to_nat (d_idx d x y z))) /\
     (fst (printDarcyArray3 stream arr out d) = Undefined
      <-> ~ forall x y z, interior d x y z ->
              is_Some (arr !! Z.to_nat (d_idx d x y z)))).
Proof.
  split; [|split; [|split; [|split; [|split; [|split; [|split]]]]]]; intros.
  - apply quiet_printDarcyArray.
  - apply quiet_printDarcyArray.
  - apply quiet_printDarcyArray3.
  - apply quiet_printDarcyArray3.
  - unfold writeDarcyArray. destruct (fopen_ok filename).
    + apply quiet_bind; [apply quiet_printDarcyArray|].
      intros; apply quiet_ret.
    + apply quiet_ret.
  - unfold writeDarcyArray3. destruct (fopen_ok filename).
    + apply quiet_bind; [apply quiet_printDarcyArray3|].
      intros; apply quiet_ret.
    + apply quiet_ret.
  - assert (R : (exists w, fst (printDarcyArray stream arr out d) = Returned w)
                <-> forall x y z, padded d x y z ->
                      is_Some (arr !! Z.to_nat (d_idx d x y z))).
    { split.
      - intros [w Hw].
        destruct (printDarcyArray stream arr out d) as [o d'] eqn:E.
        cbn [fst] in Hw. subst o.
        exact (printDarcyArray_returned _ _ _ _ _ _ E).
      - intros Hread. rewrite printDarcyArray_run by assumption. eauto. }
    split; [exact R|]. rewrite <- R.
    destruct (quiet_outcome (printDarcyArray stream arr out) d
                (quiet_printDarcyArray _ _ _)) as [[w Hw] | Hu].
    + rewrite Hw. split; [discriminate|]. intros Hn. destruct Hn. eauto.
    + rewrite Hu. split; [|reflexivity]. intros _ [w Hw]. discriminate.
  - assert (R : (exists w, fst (printDarcyArray3 stream arr out d)
                           = Returned w)
                <-> forall x y z, interior d x y z ->
                      is_Some (arr !! Z.to_nat (d_idx d x y z))).
    { split.
      - intros [w Hw].
        destruct (printDarcyArray3 stream arr out d) as [o d'] eqn:E.
        cbn [fst] in Hw. subst o.
        exact (printDarcyArray3_returned _ _ _ _ _ _ E).
      - intros Hread. rewrite printDarcyArray3_run by assumption. eauto. }
    split; [exact R|]. rewrite <- R.
    destruct (quiet_outcome (printDarcyArray3 stream arr out) d
                (quiet_printDarcyArray3 _ _ _)) as [[w Hw] | Hu].
    + rewrite Hw. split; [discriminate|]. intros Hn. destruct Hn. eauto.
    + rewrite Hu. split; [|reflexivity]. intros _ [w Hw]. discriminate.
Qed.

(** X19: [writeDarcyArray] and a file that cannot be opened.  When
    [fopen] fails the function writes the one error line to [stderr] and
    returns without reading the array, so that even an unallocated array
    does no harm; when [fopen] succeeds and the padded nodes can be read,
    the file receives, between opening and closing, exactly what
    [printDarcyArray] would write to that stream. *)
Theorem writeDarcyArray_outcomes (fopen_ok : string -> bool)
    (array : list Float) (filename : string) (out : list Event) (d : DEM) :
  (fopen_ok filename = false ->
   writeDarcyArray fopen_ok array filename out d
   = (Returned (out ++ [Fprintf Stderr "Error, could not open %s.\n"
                          [AStr filename]]), d)) /\
  (fopen_ok filename = true ->
   (forall x y z, padded d x y z ->
      is_Some (array !! Z.to_nat (d_idx d x y z))) ->
   exists written,
     printDarcyArray (FileStream filename) array [] d
       = (Returned written, d) /\
     writeDarcyArray fopen_ok array filename out d
       = (Returned (out ++ [Fopen filename "w"] ++ written
                        ++ [Fclose filename]), d)).
Proof.
  split.
  - intros E. unfold writeDarcyArray. now rewrite E.
  - intros E Hread. exists (scalar_dump (FileStream filename) array d).
    split; [now rewrite printDarcyArray_run|].
    unfold writeDarcyArray. rewrite E.
    erewrite bind_run by (now apply printDarcyArray_run).
    unfold ret. now rewrite <- !app_assoc.
Qed.

Lemma writeDarcyArray_outcomes_witness :
  writeDarcyArray (fun _ => false) [] "ns_phi.txt" [] scenario_DEM
  = (Returned ([] ++ [Fprintf Stderr "Error, could not open %s.\n"
                        [AStr "ns_phi.txt"]]), scenario_DEM).
Proof.
  apply (writeDarcyArray_outcomes (fun _ => false) [] "ns_phi.txt" []
           scenario_DEM).
  reflexivity.
Defined.

